(** * JSON-redis: the storage engine of [json_redis.py]

    A shallow embedding of the class [JSONStorage]: the in-memory dictionary
    [self.storage], the snapshot file behind [self.filename], and every method
    of the class as a function in a state-and-exception monad.

    Conventions of the embedding.
    - Python objects are the terms of [value]: [None], [int], [str], [list],
      [tuple], [set] and [dict].  Set members are ints or strs ([scalar]);
      dictionary keys are strs.  Booleans and floats are not part of the
      universe.
    - Strings are sequences of one-byte characters.
    - [time.time()] is an explicit argument [now : Z] of the methods that
      read the clock; timestamps are integral clock ticks.
    - [fnmatch.fnmatch] is a parameter of [keys].
    - Objects are values: a key holds its own copy of the object stored
      under it.  The engine never puts one object under two keys by itself
      ([rename] moves it, [expire] puts it inside the wrapper that replaces
      it); two names for one mutable object arise only when a caller hands
      an object it got from [get], [smembers], [hget] or a pop back to
      [set], [hset] or a push, or keeps and mutates it.  Such callers are
      outside the embedding.
    - The reentrant lock is not modelled: every method body runs to
      completion before the next one starts.
    - A method is a function [state -> state * result A]: the state it leaves
      behind, and either the returned object or the exception raised. *)

From Stdlib Require Import ZArith String List Bool Lia.
From stdpp Require Import base option list gmap strings fin_maps.

Set Warnings "-register-all".
Open Scope string_scope.
Open Scope Z_scope.

(** ** Python objects *)

Inductive scalar : Type :=
| SInt (z : Z)
| SStr (s : string).

#[global] Instance scalar_eq_dec : EqDecision scalar.
Proof. solve_decision. Defined.

#[global] Instance scalar_countable : Countable scalar.
Proof.
  refine (inj_countable'
            (fun x => match x with SInt z => inl z | SStr s => inr s end)
            (fun y => match y with inl z => SInt z | inr s => SStr s end) _).
  intros []; reflexivity.
Defined.

Inductive value : Type :=
| VNone
| VInt (z : Z)
| VStr (s : string)
| VList (l : list value)
| VTuple (l : list value)
| VSet (s : gset scalar)
| VDict (d : list (string * value)).

Definition of_scalar (x : scalar) : value :=
  match x with SInt z => VInt z | SStr s => VStr s end.

(** [isinstance(item, (int, str))] *)
Definition to_scalar (v : value) : option scalar :=
  match v with VInt z => Some (SInt z) | VStr s => Some (SStr s) | _ => None end.

Inductive exn : Type :=
| TypeError | KeyError | AttributeError | IndexError | ValueError
| JSONDecodeError.

Inductive result (A : Type) : Type :=
| Ok (a : A)
| Raise (e : exn).
Arguments Ok {A} a.
Arguments Raise {A} e.

Definition is_raise {A} (r : result A) : bool :=
  match r with Ok _ => false | Raise _ => true end.

#[global] Instance result_ret : MRet result := fun A a => Ok a.
#[global] Instance result_bind : MBind result :=
  fun A B f r => match r with Ok a => f a | Raise e => Raise e end.
#[global] Instance result_fmap : FMap result :=
  fun A B f r => match r with Ok a => Ok (f a) | Raise e => Raise e end.

(** ** Dictionaries: insertion-ordered, keyed by strings *)

Fixpoint dict_get {A} (d : list (string * A)) (k : string) : option A :=
  match d with
  | [] => None
  | (k', v) :: d' => if String.eqb k' k then Some v else dict_get d' k
  end.

Definition dict_mem {A} (k : string) (d : list (string * A)) : bool :=
  match dict_get d k with Some _ => true | None => false end.

(** [d[k] = v]: an existing key keeps its position, a new one goes last. *)
Fixpoint dict_set {A} (d : list (string * A)) (k : string) (v : A)
  : list (string * A) :=
  match d with
  | [] => [(k, v)]
  | (k', v') :: d' =>
      if String.eqb k' k then (k', v) :: d' else (k', v') :: dict_set d' k v
  end.

(** [del d[k]] *)
Fixpoint dict_del {A} (d : list (string * A)) (k : string)
  : list (string * A) :=
  match d with
  | [] => []
  | (k', v') :: d' =>
      if String.eqb k' k then d' else (k', v') :: dict_del d' k
  end.

(** ** Python operators on objects *)

(** [a == b] *)
Fixpoint py_eq (a b : value) {struct a} : bool :=
  match a, b with
  | VNone, VNone => true
  | VInt x, VInt y => Z.eqb x y
  | VStr x, VStr y => String.eqb x y
  | VList x, VList y | VTuple x, VTuple y =>
      (fix go (x y : list value) {struct x} : bool :=
         match x, y with
         | [], [] => true
         | a' :: x', b' :: y' => py_eq a' b' && go x' y'
         | _, _ => false
         end) x y
  | VSet x, VSet y => bool_decide (x = y)
  | VDict x, VDict y =>
      Nat.eqb (length x) (length y) &&
      (fix go (x : list (string * value)) {struct x} : bool :=
         match x with
         | [] => true
         | (k, v) :: x' =>
             match dict_get y k with
             | Some v' => py_eq v v' && go x'
             | None => false
             end
         end) x
  | _, _ => false
  end.

(** [a < b]; [TypeError] where Python has no ordering between the operands.
    Sequences compare lexicographically: the first pair of unequal items
    decides, otherwise the shorter sequence is the smaller. *)
Fixpoint py_lt (a b : value) {struct a} : result bool :=
  match a, b with
  | VInt x, VInt y => Ok (Z.ltb x y)
  | VStr x, VStr y => Ok (String.ltb x y)
  | VList x, VList y | VTuple x, VTuple y =>
      (fix go (x y : list value) {struct x} : result bool :=
         match x, y with
         | [], [] => Ok false
         | [], _ :: _ => Ok true
         | _ :: _, [] => Ok false
         | a' :: x', b' :: y' =>
             if py_eq a' b' then go x' y' else py_lt a' b'
         end) x y
  | VSet x, VSet y => Ok (bool_decide (x ⊂ y))
  | _, _ => Raise TypeError
  end.

(** [x in c] for an int or str [x]. *)
Fixpoint is_substring (p s : string) : bool :=
  String.prefix p s ||
  match s with
  | EmptyString => false
  | String _ s' => is_substring p s'
  end.

Definition py_contains (c : value) (x : scalar) : result bool :=
  match c with
  | VList l | VTuple l => Ok (existsb (fun e => py_eq e (of_scalar x)) l)
  | VSet s => Ok (bool_decide (x ∈ s))
  | VDict d =>
      Ok (match x with SStr k => dict_mem k d | SInt _ => false end)
  | VStr s =>
      match x with
      | SStr p => Ok (is_substring p s)
      | SInt _ => Raise TypeError
      end
  | VInt _ | VNone => Raise TypeError
  end.

(** [c[k]] for a str [k]: only dictionaries take a str subscript. *)
Definition py_getitem (c : value) (k : string) : result value :=
  match c with
  | VDict d =>
      match dict_get d k with Some v => Ok v | None => Raise KeyError end
  | _ => Raise TypeError
  end.

(** [c[k] = v] for a str [k]; the result is the container after the store. *)
Definition py_setitem (c : value) (k : string) (v : value) : result value :=
  match c with
  | VDict d => Ok (VDict (dict_set d k v))
  | _ => Raise TypeError
  end.

(** [del c[k]] for a str [k], reached only when [k in c] holds. *)
Definition py_delitem (c : value) (k : string) : result value :=
  match c with
  | VDict d =>
      if dict_mem k d then Ok (VDict (dict_del d k)) else Raise KeyError
  | _ => Raise TypeError
  end.

(** [a + n] for an int [n] *)
Definition py_add_int (a : value) (n : Z) : result value :=
  match a with
  | VInt z => Ok (VInt (z + n))
  | _ => Raise TypeError
  end.

(** [now > t] where [now] is the clock *)
Definition py_clock_gt (now : Z) (t : value) : result bool :=
  match t with
  | VInt z => Ok (Z.ltb z now)
  | _ => Raise TypeError
  end.

(** [l[i]] on a list: negative indices count from the end. *)
Definition py_index {A} (l : list A) (i : Z) : result A :=
  let n := Z.of_nat (length l) in
  let j := if i <? 0 then i + n else i in
  if j <? 0 then Raise IndexError
  else match l !! Z.to_nat j with
       | Some x => Ok x
       | None => Raise IndexError
       end.

(** [l[start:stop]]: each bound is shifted by the length when negative and
    then clamped to [0 .. len]. *)
Definition slice_bound (n i : Z) : Z :=
  if i <? 0 then Z.max 0 (i + n) else Z.min i n.

Definition py_slice {A} (l : list A) (start stop : Z) : list A :=
  let n := Z.of_nat (length l) in
  let lo := slice_bound n start in
  let hi := slice_bound n stop in
  take (Z.to_nat (hi - lo)) (drop (Z.to_nat lo) l).

(** [list.sort()]: a stable sort that only asks [<]; it raises as soon as
    a comparison does. *)
Fixpoint sort_insert (x : value) (l : list value) : result (list value) :=
  match l with
  | [] => Ok [x]
  | y :: l' =>
      b ← py_lt y x;
      if (b : bool) then (cons y) <$> sort_insert x l' else Ok (x :: y :: l')
  end.

Fixpoint py_sort (l : list value) : result (list value) :=
  match l with
  | [] => Ok []
  | x :: l' => s ← py_sort l'; sort_insert x s
  end.

(** [for s, v in ...]: unpacking an item into exactly two targets. *)
Definition chars (s : string) : list value :=
  (fun c => VStr (String c EmptyString)) <$> list_ascii_of_string s.

Definition unpack2 (item : value) : result (value * value) :=
  let two (l : list value) :=
    match l with [a; b] => Ok (a, b) | _ => Raise ValueError end in
  match item with
  | VList l | VTuple l => two l
  | VStr s => two (chars s)
  | VSet s => two (of_scalar <$> elements s)
  | VDict d => two ((fun kv => VStr (fst kv)) <$> d)
  | VInt _ | VNone => Raise TypeError
  end.

(** ** The snapshot file: JSON documents *)

Inductive json : Type :=
| JNull
| JInt (z : Z)
| JStr (s : string)
| JArr (l : list json)
| JObj (d : list (string * json)).

(** [json.dump]: lists and tuples both become arrays, a set is not
    serializable.  [None] stands for the [TypeError] the encoder raises. *)
Fixpoint dump (v : value) : option json :=
  match v with
  | VNone => Some JNull
  | VInt z => Some (JInt z)
  | VStr s => Some (JStr s)
  | VList l | VTuple l => JArr <$> mapM dump l
  | VSet _ => None
  | VDict d =>
      JObj <$> mapM (fun kv => match kv with (k, x) => pair k <$> dump x end) d
  end.

(** [json.load] *)
Fixpoint load (j : json) : value :=
  match j with
  | JNull => VNone
  | JInt z => VInt z
  | JStr s => VStr s
  | JArr l => VList (load <$> l)
  | JObj d => VDict ((fun kv => match kv with (k, x) => (k, load x) end) <$> d)
  end.

(** The file behind [self.filename]: missing, holding a complete document,
    or left cut short by a [json.dump] that raised after [open(..., 'w')]
    had truncated it. *)
Inductive disk : Type :=
| NoFile
| Snapshot (doc : gmap string json)
| Garbled.

Record state : Type := { storage : gmap string value; file : disk }.

(** ** The monad of the methods *)

Definition M (A : Type) : Type := state -> state * result A.

#[global] Instance M_ret : MRet M := fun A a st => (st, Ok a).
#[global] Instance M_bind : MBind M :=
  fun A B f m st =>
    match m st with
    | (st', Ok a) => f a st'
    | (st', Raise e) => (st', Raise e)
    end.

Definition read : M (gmap string value) := fun st => (st, Ok (storage st)).
Definition raise {A} (e : exn) : M A := fun st => (st, Raise e).
Definition lift {A} (r : result A) : M A := fun st => (st, r).

(** [self.storage[key] = v] *)
Definition assign (key : string) (v : value) : M unit :=
  fun st => ({| storage := <[key := v]> (storage st); file := file st |}, Ok ()).

(** [del self.storage[key]] *)
Definition remove (key : string) : M unit :=
  fun st => ({| storage := delete key (storage st); file := file st |}, Ok ()).

(** [self.storage[key]] *)
Definition item (key : string) : M value :=
  fun st =>
    match storage st !! key with
    | Some v => (st, Ok v)
    | None => (st, Raise KeyError)
    end.

(** [if key not in self.storage: self.storage[key] = v] *)
Definition init_if_absent (key : string) (v : value) : M unit :=
  m ← read;
  match m !! key with
  | None => assign key v
  | Some _ => mret ()
  end.

(** ** List and set methods of Python used by the engine *)

(** [c.insert(0, v)] and [c.append(v)]: only lists have them. *)
Definition py_insert0 (c : value) (v : value) : result value :=
  match c with
  | VList l => Ok (VList (v :: l))
  | _ => Raise AttributeError
  end.

Definition py_append (c : value) (v : value) : result value :=
  match c with
  | VList l => Ok (VList (l ++ [v]))
  | _ => Raise AttributeError
  end.

(** [c.sort()]; when a comparison raises, the list keeps its items (in an
    order CPython does not specify; here, the order before the call). *)
Definition py_sort_method (c : value) : result value :=
  match c with
  | VList l => VList <$> py_sort l
  | _ => Raise AttributeError
  end.

(** [l.remove(x)]: the first item equal to [x] goes. *)
Fixpoint list_remove (l : list value) (x : value) : result (list value) :=
  match l with
  | [] => Raise ValueError
  | y :: l' => if py_eq y x then Ok l' else (cons y) <$> list_remove l' x
  end.

(** [c.remove(x)]: sets and lists have it. *)
Definition py_remove (c : value) (x : scalar) : result value :=
  match c with
  | VSet s =>
      if bool_decide (x ∈ s) then Ok (VSet (s ∖ {[x]})) else Raise KeyError
  | VList l => VList <$> list_remove l (of_scalar x)
  | _ => Raise AttributeError
  end.

(** The wrapper dictionary of a value with a time to live. *)
Definition wrap (v : value) (expires_at : Z) : value :=
  VDict [("value", v); ("expires_at", VInt expires_at)].

(** ** The class [JSONStorage] *)

Module JSONStorage.

(** *** Persistence *)

(** [list(v) if isinstance(v, set) else v], then the encoder. *)
Definition dump_entry (v : value) : option json :=
  match v with
  | VSet s => dump (VList (of_scalar <$> elements s))
  | _ => dump v
  end.

Definition encode (m : gmap string value) : option (gmap string json) :=
  if decide (map_Forall (fun _ v => is_Some (dump_entry v)) m)
  then Some (omap dump_entry m)
  else None.

Definition _save_storage : M unit :=
  fun st =>
    match encode (storage st) with
    | Some doc => ({| storage := storage st; file := Snapshot doc |}, Ok ())
    | None => ({| storage := storage st; file := Garbled |}, Raise TypeError)
    end.

(** The loop of [_load_storage]: a list whose items are all ints or strs
    is replaced by the set of its items. *)
Definition all_primitive (l : list value) : bool :=
  forallb (fun it => match to_scalar it with Some _ => true | None => false end) l.

Definition load_entry (j : json) : value :=
  match load j with
  | VList l =>
      if all_primitive l then VSet (list_to_set (omap to_scalar l))
      else VList l
  | v => v
  end.

Definition _load_storage (f : disk) : result (gmap string value) :=
  match f with
  | NoFile => Ok ∅
  | Snapshot doc => Ok (load_entry <$> doc)
  | Garbled => Raise JSONDecodeError
  end.

(** [JSONStorage(filename)]: a fresh engine over the file. *)
Definition __init__ (f : disk) : result state :=
  m ← _load_storage f; Ok {| storage := m; file := f |}.


(** *** The commands *)

Definition set (key : string) (v : value) : M unit :=
  assign key v;;
  _save_storage.

Definition setex (now : Z) (key : string) (ttl : Z) (v : value) : M unit :=
  assign key (wrap v (now + ttl));;
  _save_storage.

Definition get (now : Z) (key : string) : M value :=
  m ← read;
  match m !! key with
  | Some (VDict d) =>
      if dict_mem "expires_at" d then
        t ← lift (py_getitem (VDict d) "expires_at");
        expired ← lift (py_clock_gt now t);
        if (expired : bool) then
          remove key;;
          _save_storage;;
          mret VNone
        else lift (py_getitem (VDict d) "value")
      else mret (VDict d)
  | Some v => mret v
  | None => mret VNone
  end.

Definition delete (key : string) : M unit :=
  m ← read;
  match m !! key with
  | Some _ => remove key;; _save_storage
  | None => mret ()
  end.

Definition sadd (key : string) (x : scalar) : M unit :=
  m ← read;
  match m !! key with
  | None => assign key (VSet ∅)
  | Some (VSet _) => mret ()
  | Some _ => raise TypeError
  end;;
  c ← item key;
  match c with
  | VSet s => assign key (VSet ({[x]} ∪ s))
  | _ => raise AttributeError
  end;;
  _save_storage.

Definition srem (key : string) (x : scalar) : M unit :=
  m ← read;
  match m !! key with
  | Some c =>
      found ← lift (py_contains c x);
      if (found : bool) then
        c' ← lift (py_remove c x);
        assign key c';;
        _save_storage
      else mret ()
  | None => mret ()
  end.

Definition sismember (key : string) (x : scalar) : M bool :=
  m ← read;
  match m !! key with
  | Some c => lift (py_contains c x)
  | None => mret false
  end.

Definition smembers (key : string) : M value :=
  m ← read;
  match m !! key with
  | Some c => mret c
  | None => mret (VSet ∅)
  end.

Definition hset (key field : string) (v : value) : M unit :=
  init_if_absent key (VDict []);;
  c ← item key;
  c' ← lift (py_setitem c field v);
  assign key c';;
  _save_storage.

Definition hget (key field : string) : M value :=
  m ← read;
  match m !! key with
  | Some c =>
      found ← lift (py_contains c (SStr field));
      if (found : bool) then lift (py_getitem c field) else mret VNone
  | None => mret VNone
  end.

Definition hdel (key field : string) : M unit :=
  m ← read;
  match m !! key with
  | Some c =>
      found ← lift (py_contains c (SStr field));
      if (found : bool) then
        c' ← lift (py_delitem c field);
        assign key c';;
        _save_storage
      else mret ()
  | None => mret ()
  end.

Definition hincrby (key field : string) (increment : Z) : M value :=
  init_if_absent key (VDict []);;
  c ← item key;
  found ← lift (py_contains c (SStr field));
  (if (found : bool) then mret ()
   else c' ← lift (py_setitem c field (VInt 0)); assign key c');;
  c ← item key;
  x ← lift (py_getitem c field);
  y ← lift (py_add_int x increment);
  c' ← lift (py_setitem c field y);
  assign key c';;
  _save_storage;;
  c ← item key;
  lift (py_getitem c field).

Definition lpush (key : string) (v : value) : M unit :=
  m ← read;
  match m !! key with
  | None => assign key (VList [])
  | Some (VList _) => mret ()
  | Some _ => raise TypeError
  end;;
  c ← item key;
  c' ← lift (py_insert0 c v);
  assign key c';;
  _save_storage.

Definition rpush (key : string) (v : value) : M unit :=
  m ← read;
  match m !! key with
  | None => assign key (VList [])
  | Some (VList _) => mret ()
  | Some _ => raise TypeError
  end;;
  c ← item key;
  c' ← lift (py_append c v);
  assign key c';;
  _save_storage.

Definition lpop (key : string) : M value :=
  m ← read;
  match m !! key with
  | Some (VList (x :: l)) =>
      assign key (VList l);;
      _save_storage;;
      mret x
  | _ => mret VNone
  end.

Definition rpop (key : string) : M value :=
  m ← read;
  match m !! key with
  | Some (VList (x :: l)) =>
      assign key (VList (removelast (x :: l)));;
      _save_storage;;
      mret (List.last (x :: l) VNone)
  | _ => mret VNone
  end.

Definition llen (key : string) : M Z :=
  m ← read;
  match m !! key with
  | Some (VList l) => mret (Z.of_nat (length l))
  | _ => mret 0
  end.

Definition expire (now : Z) (key : string) (ttl : Z) : M unit :=
  m ← read;
  match m !! key with
  | Some c =>
      match c with
      | VDict d =>
          if dict_mem "expires_at" d then
            c' ← lift (py_setitem c "expires_at" (VInt (now + ttl)));
            assign key c'
          else assign key (wrap c (now + ttl))
      | _ => assign key (wrap c (now + ttl))
      end;;
      _save_storage
  | None => mret ()
  end.

Section Keys.
(** [fnmatch.fnmatch] of the Python library: shell-style matching of a
    name against a pattern. *)
Variable fnmatch : string -> string -> bool.

Definition keys (pattern : string) : M (list string) :=
  m ← read;
  mret (filter (fun key => fnmatch key pattern = true) (map_to_list m).*1).
End Keys.

Definition incrby (key : string) (increment : Z) : M value :=
  init_if_absent key (VInt 0);;
  c ← item key;
  match c with
  | VInt z => assign key (VInt (z + increment))
  | _ => raise TypeError
  end;;
  _save_storage;;
  item key.

Definition decrby (key : string) (decrement : Z) : M value :=
  incrby key (- decrement).

Definition exists_ (key : string) : M bool :=
  m ← read;
  mret (bool_decide (is_Some (m !! key))).

Definition rename (old_key new_key : string) : M unit :=
  m ← read;
  match m !! old_key with
  | Some v =>
      remove old_key;;
      assign new_key v;;
      _save_storage
  | None => raise KeyError
  end.

Definition type (key : string) : M string :=
  m ← read;
  match m !! key with
  | Some v =>
      mret match v with
           | VStr _ => "string"
           | VList _ => "list"
           | VSet _ => "set"
           | VDict _ => "hash"
           | VInt _ => "integer"
           | _ => "unknown"
           end
  | None => mret "none"
  end.

Definition append (key : string) (v : value) : M unit :=
  m ← read;
  match m !! key with
  | Some (VStr s) =>
      match v with
      | VStr s' => assign key (VStr (s ++ s'))
      | _ => raise TypeError
      end
  | Some _ => raise TypeError
  | None => assign key v
  end;;
  _save_storage.

Definition lindex (key : string) (index : Z) : M value :=
  m ← read;
  match m !! key with
  | Some (VList l) =>
      match py_index l index with
      | Ok x => mret x
      | Raise IndexError => mret VNone
      | Raise e => raise e
      end
  | _ => mret VNone
  end.

Definition lrange (key : string) (start end_ : Z) : M (list value) :=
  m ← read;
  match m !! key with
  | Some (VList l) => mret (py_slice l start (end_ + 1))
  | _ => mret []
  end.

Definition scard (key : string) : M Z :=
  m ← read;
  match m !! key with
  | Some (VSet s) => mret (Z.of_nat (size s))
  | _ => mret 0
  end.

Definition sdiff (key1 key2 : string) : M (gset scalar) :=
  m ← read;
  match m !! key1, m !! key2 with
  | Some (VSet s1), Some (VSet s2) => mret (s1 ∖ s2)
  | _, _ => mret ∅
  end.

Definition sunion (key1 key2 : string) : M (gset scalar) :=
  m ← read;
  match m !! key1, m !! key2 with
  | Some (VSet s1), Some (VSet s2) => mret (s1 ∪ s2)
  | _, _ => mret ∅
  end.

Definition hkeys (key : string) : M (list string) :=
  m ← read;
  match m !! key with
  | Some (VDict d) => mret d.*1
  | _ => mret []
  end.

Definition hvals (key : string) : M (list value) :=
  m ← read;
  match m !! key with
  | Some (VDict d) => mret d.*2
  | _ => mret []
  end.

Definition hlen (key : string) : M Z :=
  m ← read;
  match m !! key with
  | Some (VDict d) => mret (Z.of_nat (length d))
  | _ => mret 0
  end.

Definition zadd (key : string) (score : Z) (member : scalar) : M unit :=
  init_if_absent key (VList []);;
  c ← item key;
  c' ← lift (py_append c (VTuple [VInt score; of_scalar member]));
  assign key c';;
  c'' ← lift (py_sort_method c');
  assign key c'';;
  _save_storage.

Definition zrange (key : string) (start end_ : Z) : M (list value) :=
  m ← read;
  match m !! key with
  | Some (VList l) =>
      lift (mapM (fun it => snd <$> unpack2 it) (py_slice l start (end_ + 1)))
  | _ => mret []
  end.

Fixpoint zscore_loop (l : list value) (x : value) : result value :=
  match l with
  | [] => Ok VNone
  | it :: l' =>
      sv ← unpack2 it;
      if py_eq (snd sv) x then Ok (fst sv) else zscore_loop l' x
  end.

Definition zscore (key : string) (member : scalar) : M value :=
  m ← read;
  match m !! key with
  | Some (VList l) => lift (zscore_loop l (of_scalar member))
  | _ => mret VNone
  end.

End JSONStorage.

(** ** Vocabulary of the statements *)

(** The Python type of an object, as [isinstance] sees it. *)
Inductive kind : Type := KNone | KInt | KStr | KList | KTuple | KSet | KDict.

Definition kind_of (v : value) : kind :=
  match v with
  | VNone => KNone
  | VInt _ => KInt
  | VStr _ => KStr
  | VList _ => KList
  | VTuple _ => KTuple
  | VSet _ => KSet
  | VDict _ => KDict
  end.

(** A command that leaves the engine (dictionary and file) as it found it,
    whatever it returns or raises. *)
Definition read_only {A} (m : M A) : Prop := forall st, fst (m st) = st.

(** The round trip: the snapshot is written, then a fresh engine is opened
    on the file. *)
Definition reopen (st : state) : result state :=
  match JSONStorage._save_storage st with
  | (st', Ok _) => JSONStorage.__init__ (file st')
  | (_, Raise e) => Raise e
  end.

(** The engine over no file, and the engine after a command. *)
Definition fresh : state := {| storage := ∅; file := NoFile |}.

Definition after {A} (m : M A) (st : state) : state := fst (m st).

(** The engine whose dictionary holds one key. *)
Definition holding (k : string) (v : value) : state :=
  {| storage := {[ k := v ]}; file := NoFile |}.

(** No tuple anywhere inside the object. *)
Fixpoint tuple_free (v : value) : bool :=
  match v with
  | VTuple _ => false
  | VList l => forallb tuple_free l
  | VDict d => forallb (fun kv => match kv with (_, x) => tuple_free x end) d
  | _ => true
  end.

(** A list whose items are all ints or strs: what [_load_storage] takes for
    a set. *)
Definition primitive_list (v : value) : bool :=
  match v with
  | VList l => JSONStorage.all_primitive l
  | _ => false
  end.

(** An object that the snapshot gives back as it was. *)
Definition stable (v : value) : bool := tuple_free v && negb (primitive_list v).

(** The items [zadd] appends: a tuple of an int score and an int or str
    member. *)
Definition is_scored_item (v : value) : bool :=
  match v with
  | VTuple [VInt _; VInt _] | VTuple [VInt _; VStr _] => true
  | _ => false
  end.

(** A tuple as [json.load] gives it back. *)
Definition tuple_to_list (v : value) : value :=
  match v with
  | VTuple l => VList l
  | _ => v
  end.


(** ** Vocabulary of the further properties *)

From Stdlib Require Import Sorted.

(** The file holds the snapshot of the in-memory dictionary. *)
Definition saved (st : state) : Prop :=
  exists doc,
    JSONStorage.encode (storage st) = Some doc /\ file st = Snapshot doc.

(** A command whose normal return always follows a snapshot write. *)
Definition ends_saved {A} (m : M A) : Prop :=
  forall st st' a, m st = (st', Ok a) -> saved st'.

(** A command that, when it returns normally, has either changed nothing
    or left the file in step with the dictionary. *)
Definition persists_on_success {A} (m : M A) : Prop :=
  forall st st' a, m st = (st', Ok a) -> st' = st \/ saved st'.

(** A dictionary with a field [expires_at]: what [get] and [expire] take
    for a value with a time to live. *)
Definition is_wrapper (v : value) : bool :=
  match v with
  | VDict d => dict_mem "expires_at" d
  | _ => false
  end.

(** The item [zadd] appends for a str member, and the order in which
    [list.sort] leaves such items: by score, then by member. *)
Definition scored (p : Z * string) : value := VTuple [VInt (fst p); VStr (snd p)].

Definition pair_le (a b : Z * string) : Prop :=
  fst a < fst b \/ (fst a = fst b /\ String.leb (snd a) (snd b) = true).
(** ** Read-only commands *)

Lemma read_only_ret {A} (a : A) : read_only (mret a : M A).
Proof. intros st. reflexivity. Qed.

Lemma read_only_raise {A} (e : exn) : read_only (raise e : M A).
Proof. intros st. reflexivity. Qed.

Lemma read_only_lift {A} (r : result A) : read_only (lift r).
Proof. intros st. reflexivity. Qed.

Lemma read_only_read : read_only read.
Proof. intros st. reflexivity. Qed.

Lemma read_only_bind {A B} (m : M A) (f : A -> M B) :
  read_only m -> (forall a, read_only (f a)) -> read_only (m ≫= f).
Proof.
  intros Hm Hf st. unfold mbind, M_bind.
  specialize (Hm st). destruct (m st) as [st' [a | e]]; simpl in Hm; subst st'.
  - apply Hf.
  - reflexivity.
Qed.

Ltac frame_step :=
  first
    [ apply read_only_bind; [ | intros ? ]
    | apply read_only_ret | apply read_only_raise | apply read_only_lift
    | apply read_only_read
    | match goal with
      | |- read_only (match ?x with _ => _ end) => destruct x
      | |- read_only (if ?b then _ else _) => destruct b
      end ].

Ltac frame := repeat frame_step.

(** C10.  The read-only commands [exists], [type], [keys], [llen], [scard],
    [hlen], [sismember], [smembers], [hget], [hkeys], [hvals], [lindex],
    [lrange], [zrange] and [zscore] leave the in-memory dictionary and the
    snapshot file exactly as they were, for every key, pattern, argument
    and engine state, whether they return or raise. *)
Theorem read_only_commands (fnmatch : string -> string -> bool)
    (key pattern field : string) (x : scalar) (i j : Z) :
  read_only (JSONStorage.exists_ key) /\
  read_only (JSONStorage.type key) /\
  read_only (JSONStorage.keys fnmatch pattern) /\
  read_only (JSONStorage.llen key) /\
  read_only (JSONStorage.scard key) /\
  read_only (JSONStorage.hlen key) /\
  read_only (JSONStorage.sismember key x) /\
  read_only (JSONStorage.smembers key) /\
  read_only (JSONStorage.hget key field) /\
  read_only (JSONStorage.hkeys key) /\
  read_only (JSONStorage.hvals key) /\
  read_only (JSONStorage.lindex key i) /\
  read_only (JSONStorage.lrange key i j) /\
  read_only (JSONStorage.zrange key i j) /\
  read_only (JSONStorage.zscore key x).
Proof.
  repeat apply conj.
  - unfold JSONStorage.exists_. frame.
  - unfold JSONStorage.type. frame.
  - unfold JSONStorage.keys. frame.
  - unfold JSONStorage.llen. frame.
  - unfold JSONStorage.scard. frame.
  - unfold JSONStorage.hlen. frame.
  - unfold JSONStorage.sismember. frame.
  - unfold JSONStorage.smembers. frame.
  - unfold JSONStorage.hget. frame.
  - unfold JSONStorage.hkeys. frame.
  - unfold JSONStorage.hvals. frame.
  - unfold JSONStorage.lindex. frame.
  - unfold JSONStorage.lrange. frame.
  - unfold JSONStorage.zrange. frame.
  - unfold JSONStorage.zscore. frame.
Qed.

(** ** Running a command on a state *)

Ltac unfold_monad :=
  unfold init_if_absent, item, assign, remove, read, raise, lift,
    mbind, M_bind, mret, M_ret in *.

(** Unfold the monad, then replace the lookups of the dictionary by the
    hypothesis about them. *)
Ltac run_with H := unfold_monad; cbn; rewrite ?H; cbn.

(** *** Commands that meet an object of the wrong type *)

Section WrongType.
Variables (st : state) (k : string) (v : value).
Hypothesis Hk : storage st !! k = Some v.

Lemma incrby_wrong_type n :
  kind_of v <> KInt -> JSONStorage.incrby k n st = (st, Raise TypeError).
Proof. intros Hv. unfold JSONStorage.incrby. run_with Hk. destruct v; done. Qed.

Lemma decrby_wrong_type n :
  kind_of v <> KInt -> JSONStorage.decrby k n st = (st, Raise TypeError).
Proof. apply incrby_wrong_type. Qed.

Lemma append_wrong_type w :
  kind_of v <> KStr -> JSONStorage.append k w st = (st, Raise TypeError).
Proof. intros Hv. unfold JSONStorage.append. run_with Hk. destruct v; done. Qed.

Lemma sadd_wrong_type x :
  kind_of v <> KSet -> JSONStorage.sadd k x st = (st, Raise TypeError).
Proof. intros Hv. unfold JSONStorage.sadd. run_with Hk. destruct v; done. Qed.

Lemma lpush_wrong_type w :
  kind_of v <> KList -> JSONStorage.lpush k w st = (st, Raise TypeError).
Proof. intros Hv. unfold JSONStorage.lpush. run_with Hk. destruct v; done. Qed.

Lemma rpush_wrong_type w :
  kind_of v <> KList -> JSONStorage.rpush k w st = (st, Raise TypeError).
Proof. intros Hv. unfold JSONStorage.rpush. run_with Hk. destruct v; done. Qed.

Lemma hset_wrong_type f w :
  kind_of v <> KDict -> JSONStorage.hset k f w st = (st, Raise TypeError).
Proof. intros Hv. unfold JSONStorage.hset. run_with Hk. destruct v; done. Qed.

Lemma hincrby_wrong_type f n :
  kind_of v <> KDict -> JSONStorage.hincrby k f n st = (st, Raise TypeError).
Proof.
  intros Hv. unfold JSONStorage.hincrby. run_with Hk.
  destruct v; try done; cbn;
    match goal with
    | |- context [if ?b then _ else _] => destruct b; cbn; rewrite ?Hk; done
    end.
Qed.

Lemma pop_wrong_type :
  kind_of v <> KList ->
  JSONStorage.lpop k st = (st, Ok VNone) /\
  JSONStorage.rpop k st = (st, Ok VNone).
Proof.
  intros Hv. unfold JSONStorage.lpop, JSONStorage.rpop.
  run_with Hk. destruct v; done.
Qed.

Lemma list_queries_wrong_type i j :
  kind_of v <> KList ->
  JSONStorage.llen k st = (st, Ok 0) /\
  JSONStorage.lindex k i st = (st, Ok VNone) /\
  JSONStorage.lrange k i j st = (st, Ok []).
Proof.
  intros Hv.
  unfold JSONStorage.llen, JSONStorage.lindex, JSONStorage.lrange.
  run_with Hk. destruct v; done.
Qed.

Lemma scard_wrong_type :
  kind_of v <> KSet -> JSONStorage.scard k st = (st, Ok 0).
Proof. intros Hv. unfold JSONStorage.scard. run_with Hk. destruct v; done. Qed.

Lemma hlen_wrong_type :
  kind_of v <> KDict -> JSONStorage.hlen k st = (st, Ok 0).
Proof. intros Hv. unfold JSONStorage.hlen. run_with Hk. destruct v; done. Qed.
End WrongType.

Lemma rename_absent (st : state) (a b : string) :
  storage st !! a = None -> JSONStorage.rename a b st = (st, Raise KeyError).
Proof. intros Ha. unfold JSONStorage.rename. run_with Ha. done. Qed.

(** C5.  Failure atomicity.  When [incrby] or [decrby] finds a non-integer,
    [append] a non-string, [sadd] a non-set, [lpush] or [rpush] a non-list,
    the command raises [TypeError]; when [rename] finds no source key it
    raises [KeyError]; in each case the engine state (the in-memory dictionary
    and the snapshot file) is exactly the one before the call. *)
Theorem failure_atomicity (st : state) (k a b : string) (v w : value)
    (n : Z) (x : scalar) :
  storage st !! k = Some v ->
  storage st !! a = None ->
  (kind_of v <> KInt ->
     JSONStorage.incrby k n st = (st, Raise TypeError) /\
     JSONStorage.decrby k n st = (st, Raise TypeError)) /\
  (kind_of v <> KStr -> JSONStorage.append k w st = (st, Raise TypeError)) /\
  (kind_of v <> KSet -> JSONStorage.sadd k x st = (st, Raise TypeError)) /\
  (kind_of v <> KList ->
     JSONStorage.lpush k w st = (st, Raise TypeError) /\
     JSONStorage.rpush k w st = (st, Raise TypeError)) /\
  JSONStorage.rename a b st = (st, Raise KeyError).
Proof.
  intros Hk Ha.
  split; [ intros Hv; split;
           [ by apply (incrby_wrong_type st k v) 
           | by apply (decrby_wrong_type st k v) ] | ].
  split; [ intros Hv; by apply (append_wrong_type st k v) | ].
  split; [ intros Hv; by apply (sadd_wrong_type st k v) | ].
  split; [ | by apply rename_absent ].
  intros Hv; split;
    [ by apply (lpush_wrong_type st k v) | by apply (rpush_wrong_type st k v) ].
Qed.

Lemma failure_atomicity_witness :
  let s1 := holding "k" (VStr "text") in
  let s2 := holding "k" (VInt 7) in
  (JSONStorage.incrby "k" 1 s1 = (s1, Raise TypeError) /\
   JSONStorage.sadd "k" (SInt 1) s1 = (s1, Raise TypeError) /\
   JSONStorage.lpush "k" (VInt 1) s1 = (s1, Raise TypeError) /\
   JSONStorage.rename "a" "b" s1 = (s1, Raise KeyError)) /\
  JSONStorage.append "k" (VStr "x") s2 = (s2, Raise TypeError).
Proof.
  intros s1 s2.
  assert (H1 : storage s1 !! "k" = Some (VStr "text")) by reflexivity.
  assert (H1' : storage s1 !! "a" = None) by reflexivity.
  assert (H2 : storage s2 !! "k" = Some (VInt 7)) by reflexivity.
  assert (H2' : storage s2 !! "a" = None) by reflexivity.
  pose proof (failure_atomicity s1 "k" "a" "b" (VStr "text") (VInt 1) 1
                (SInt 1) H1 H1') as (Hi & _ & Hs & Hl & Hr).
  pose proof (failure_atomicity s2 "k" "a" "b" (VInt 7) (VStr "x") 1
                (SInt 1) H2 H2') as (_ & Ha & _).
  split; [ repeat apply conj | ].
  - apply Hi. discriminate.
  - apply Hs. discriminate.
  - apply Hl. discriminate.
  - exact Hr.
  - apply Ha. discriminate.
Defined.

(** ** Slices *)

Lemma slice_bound_nonneg (n i : Z) : 0 <= n -> 0 <= i -> slice_bound n i = Z.min i n.
Proof. intros Hn Hi. unfold slice_bound. destruct (Z.ltb_spec i 0); lia. Qed.

(** With bounds that are not negative, [l[start:end_ + 1]] is the run of
    items at the positions [start], ..., [end_]. *)
Lemma py_slice_inclusive {A} (l : list A) (start end_ : Z) (i : nat) :
  0 <= start -> 0 <= end_ ->
  py_slice l start (end_ + 1) !! i =
    if decide (start + Z.of_nat i <= end_)
    then l !! (Z.to_nat start + i)%nat
    else None.
Proof.
  intros Hs He. unfold py_slice.
  rewrite !slice_bound_nonneg by lia.
  set (n := Z.of_nat (length l)).
  destruct (decide (start + Z.of_nat i <= end_)) as [Hin | Hout].
  - destruct (decide (start + Z.of_nat i < n)) as [Hlt | Hge].
    + rewrite lookup_take_lt by lia. rewrite lookup_drop.
      f_equal. lia.
    + rewrite (proj2 (lookup_ge_None l (Z.to_nat start + i)%nat)) by (subst n; lia).
      apply lookup_ge_None. rewrite length_take, length_drop. subst n. lia.
  - apply lookup_ge_None. rewrite length_take. lia.
Qed.

Lemma py_slice_stop_0 {A} (l : list A) : py_slice l 0 0 = [].
Proof.
  unfold py_slice, slice_bound. cbn.
  replace (Z.to_nat (_ - _)) with 0%nat by lia. reflexivity.
Qed.

(** C2.  The claimed behaviour, [lrange(k, 0, -1)] returning the whole list,
    is not what the code computes: the slice is [l[start:end + 1]], and with
    [end = -1] the stop bound is [0], so both [lrange] and [zrange] return the
    empty list on every list. *)
Theorem range_to_minus_one_is_empty (st : state) (k : string) (l : list value) :
  storage st !! k = Some (VList l) ->
  JSONStorage.lrange k 0 (-1) st = (st, Ok []) /\
  JSONStorage.zrange k 0 (-1) st = (st, Ok []).
Proof.
  intros Hk. unfold JSONStorage.lrange, JSONStorage.zrange.
  run_with Hk. change (-1 + 1) with 0. rewrite py_slice_stop_0. done.
Qed.

Lemma range_to_minus_one_is_empty_witness :
  let st := after (JSONStorage.rpush "k" (VStr "b"))
              (after (JSONStorage.lpush "k" (VStr "a")) fresh) in
  storage st !! "k" = Some (VList [VStr "a"; VStr "b"]) /\
  JSONStorage.lrange "k" 0 (-1) st = (st, Ok []).
Proof.
  intros st.
  assert (Hk : storage st !! "k" = Some (VList [VStr "a"; VStr "b"]))
    by (vm_compute; reflexivity).
  split; [ exact Hk | ].
  exact (proj1 (range_to_minus_one_is_empty st "k" _ Hk)).
Defined.

(** ** The name of a type *)

(** C6 (counterexample).  A key built by [zadd] is reported as [list], not as
    a sorted list, and a key stored by [setex] is reported as [hash], not
    with the type of the value inside the wrapper. *)
Lemma type_of_scored_list_and_wrapper :
  snd (JSONStorage.type "z" (after (JSONStorage.zadd "z" 1 (SStr "x")) fresh))
    = Ok "list" /\
  snd (JSONStorage.type "z" (after (JSONStorage.zadd "z" 1 (SStr "x")) fresh))
    <> Ok "sortedlist" /\
  snd (JSONStorage.type "t"
         (after (JSONStorage.setex 0 "t" 10 (VStr "v")) fresh))
    = Ok "hash".
Proof. vm_compute. repeat split; discriminate. Qed.

(** C6 (amended).  [type] never modifies the engine and returns one of
    [string], [integer], [list], [set], [hash], [unknown], [none]: [none]
    exactly when the key is absent, and otherwise the name of the Python
    type of the object stored under the key: [list] for every list (a
    scored list included), [hash] for every dictionary (a wrapper with an
    expiry included), [unknown] for an object that is neither str, list,
    set, dict nor int. *)
Theorem type_codomain (st : state) (k : string) :
  exists name : string,
    JSONStorage.type k st = (st, Ok name) /\
    name ∈ ["string"; "integer"; "list"; "set"; "hash"; "unknown"; "none"] /\
    (name = "none" <-> storage st !! k = None) /\
    (forall v, storage st !! k = Some v ->
       name = match kind_of v with
              | KStr => "string"
              | KInt => "integer"
              | KList => "list"
              | KSet => "set"
              | KDict => "hash"
              | KNone | KTuple => "unknown"
              end) /\
    (forall l, storage st !! k = Some (VList l) -> name = "list") /\
    (forall v t, storage st !! k = Some (wrap v t) -> name = "hash").
Proof.
  unfold JSONStorage.type. unfold_monad. cbn.
  destruct (storage st !! k) as [v | ] eqn:Hk.
  - destruct v; cbn; eexists; (split; [ reflexivity | ]);
      (split; [ set_solver | ]);
      (split; [ split; discriminate | ]);
      (split; [ intros ? [= <-]; reflexivity | ]);
      split; intros; simplify_eq; try reflexivity.
  - eexists. split; [ reflexivity | ]. split; [ set_solver | ].
    split; [ done | ]. repeat split; intros; discriminate.
Qed.

(** ** Persisting *)

Lemma save_storage_ok (st : state) (doc : gmap string json) :
  JSONStorage.encode (storage st) = Some doc ->
  JSONStorage._save_storage st =
    ({| storage := storage st; file := Snapshot doc |}, Ok ()).
Proof. intros H. unfold JSONStorage._save_storage. by rewrite H. Qed.

(** Persisting never touches the dictionary, even when the encoder raises. *)
Lemma save_storage_keeps_dictionary (st : state) :
  storage (fst (JSONStorage._save_storage st)) = storage st.
Proof. unfold JSONStorage._save_storage. by destruct (JSONStorage.encode (storage st)). Qed.

(** A set inside an expiry wrapper cannot be encoded. *)
Lemma encode_wrapped_set (m : gmap string value) (k : string)
    (s : gset scalar) (t : Z) :
  m !! k = Some (wrap (VSet s) t) -> JSONStorage.encode m = None.
Proof.
  intros Hk. unfold JSONStorage.encode.
  case_decide as Hall; [ | reflexivity ].
  destruct (Hall k _ Hk) as [j Hj]. discriminate.
Qed.

(** ** Expiry in [get] *)

Section GetOnDictionary.
Variables (st : state) (k : string) (d : list (string * value)) (t now : Z).
Hypothesis Hk : storage st !! k = Some (VDict d).
Hypothesis Ht : dict_get d "expires_at" = Some (VInt t).

(** After the timestamp: the key is deleted, then the dictionary is
    persisted. *)
Lemma get_after_expiry :
  t < now ->
  JSONStorage.get now k st =
    let (st', r) :=
      JSONStorage._save_storage
        {| storage := base.delete k (storage st); file := file st |} in
    (st', r ≫= fun _ => Ok VNone).
Proof.
  intros Hlt. unfold JSONStorage.get. run_with Hk.
  unfold dict_mem. rewrite Ht. cbn.
  destruct (Z.ltb_spec t now); [ | lia ].
  destruct (JSONStorage._save_storage _) as [st' [[] | e]]; reflexivity.
Qed.

Lemma get_after_expiry_persisted (doc : gmap string json) :
  t < now ->
  JSONStorage.encode (base.delete k (storage st)) = Some doc ->
  JSONStorage.get now k st =
    ({| storage := base.delete k (storage st); file := Snapshot doc |},
     Ok VNone).
Proof.
  intros Hlt Hdoc. rewrite get_after_expiry by done.
  by rewrite (save_storage_ok _ doc).
Qed.

(** Up to and including the timestamp: the field [value] of the
    dictionary is looked up; nothing is modified. *)
Lemma get_before_expiry :
  now <= t ->
  JSONStorage.get now k st =
    (st, match dict_get d "value" with
         | Some v => Ok v
         | None => Raise KeyError
         end).
Proof.
  intros Hle. unfold JSONStorage.get. run_with Hk.
  unfold dict_mem. rewrite Ht. cbn.
  destruct (Z.ltb_spec t now); [ lia | ]. reflexivity.
Qed.
End GetOnDictionary.

(** Lazy expiry on [get], as far as it holds.  For a key whose dictionary
    carries an inner value and an expiry timestamp: when the timestamp lies
    in the past,
    [get] removes the key from the in-memory dictionary and, the snapshot
    write succeeding, leaves the dictionary without the key persisted in the
    file and returns [None]; when the timestamp is still ahead, [get] returns
    the inner value and leaves dictionary and file untouched. *)
Theorem lazy_expiry_on_get (st : state) (k : string)
    (d : list (string * value)) (v : value) (t now : Z) :
  storage st !! k = Some (VDict d) ->
  dict_get d "value" = Some v ->
  dict_get d "expires_at" = Some (VInt t) ->
  (t < now ->
   storage (after (JSONStorage.get now k) st) = base.delete k (storage st) /\
   forall doc, JSONStorage.encode (base.delete k (storage st)) = Some doc ->
     JSONStorage.get now k st =
       ({| storage := base.delete k (storage st); file := Snapshot doc |},
        Ok VNone)) /\
  (now < t -> JSONStorage.get now k st = (st, Ok v)).
Proof.
  intros Hk Hv Ht. split.
  - intros Hlt. split.
    + unfold after. rewrite (get_after_expiry st k d t) by done.
      pose proof (save_storage_keeps_dictionary
                    {| storage := base.delete k (storage st);
                       file := file st |}) as Hs.
      by destruct (JSONStorage._save_storage _) as [st' r].
    + intros doc Hdoc. by apply (get_after_expiry_persisted st k d t).
  - intros Hlt. rewrite (get_before_expiry st k d t) by (done || lia).
    by rewrite Hv.
Qed.

Lemma lazy_expiry_on_get_witness :
  let st := after (JSONStorage.setex 10 "k" 5 (VStr "v"))
              (after (JSONStorage.set "j" (VInt 1)) fresh) in
  JSONStorage.get 16 "k" st =
    ({| storage := {[ "j" := VInt 1 ]};
        file := Snapshot {[ "j" := JInt 1 ]} |}, Ok VNone) /\
  JSONStorage.get 14 "k" st = (st, Ok (VStr "v")).
Proof.
  intros st.
  assert (Hk : storage st !! "k" = Some (wrap (VStr "v") 15))
    by (vm_compute; reflexivity).
  destruct (lazy_expiry_on_get st "k" _ (VStr "v") 15 16 Hk eq_refl eq_refl)
    as [Hpast _].
  destruct (lazy_expiry_on_get st "k" _ (VStr "v") 15 14 Hk eq_refl eq_refl)
    as [_ Hahead].
  assert (Hdoc : JSONStorage.encode (base.delete "k" (storage st))
                 = Some {[ "j" := JInt 1 ]}) by (vm_compute; reflexivity).
  split.
  - rewrite (proj2 (Hpast ltac:(lia)) _ Hdoc). vm_compute. reflexivity.
  - apply Hahead. lia.
Defined.

(** After the timestamp the key leaves the dictionary, whatever becomes of
    the snapshot write. *)
Lemma get_after_expiry_removes (st : state) (k : string)
    (d : list (string * value)) (t now : Z) :
  storage st !! k = Some (VDict d) ->
  dict_get d "expires_at" = Some (VInt t) ->
  t < now ->
  storage (after (JSONStorage.get now k) st) = base.delete k (storage st).
Proof.
  intros Hk Ht Hlt. unfold after.
  rewrite (get_after_expiry st k d t now Hk Ht Hlt).
  pose proof (save_storage_keeps_dictionary
                {| storage := base.delete k (storage st); file := file st |})
    as Hs.
  by destruct (JSONStorage._save_storage _) as [st' r].
Qed.

(** After the timestamp, when the rest of the dictionary cannot be
    encoded: the key is removed, the write raises and cuts the file short. *)
Lemma get_after_expiry_unsaved (st : state) (k : string)
    (d : list (string * value)) (t now : Z) :
  storage st !! k = Some (VDict d) ->
  dict_get d "expires_at" = Some (VInt t) ->
  t < now ->
  JSONStorage.encode (base.delete k (storage st)) = None ->
  JSONStorage.get now k st =
    ({| storage := base.delete k (storage st); file := Garbled |},
     Raise TypeError).
Proof.
  intros Hk Ht Hlt Henc. rewrite (get_after_expiry st k d t now Hk Ht Hlt).
  unfold JSONStorage._save_storage. cbn. by rewrite Henc.
Qed.

(** C4.  Lazy expiry on [get] says that [get] on a key whose expiry
    timestamp lies in the past removes the key, persists the snapshot and
    returns [None].  The code does not do that when another key holds a set
    inside an expiry wrapper (what [expire] leaves on a key holding a set):
    [get] removes the expired key from the dictionary, then the snapshot
    write raises [TypeError]; [None] is not returned and the file is left
    cut short. *)
Theorem get_past_expiry_fails_to_persist (st : state) (k j : string)
    (d : list (string * value)) (t now t' : Z) (s : gset scalar) :
  storage st !! k = Some (VDict d) ->
  dict_get d "expires_at" = Some (VInt t) ->
  t < now ->
  j <> k ->
  storage st !! j = Some (wrap (VSet s) t') ->
  JSONStorage.get now k st =
    ({| storage := base.delete k (storage st); file := Garbled |},
     Raise TypeError).
Proof.
  intros Hk Ht Hlt Hne Hj. apply (get_after_expiry_unsaved st k d t); try done.
  apply (encode_wrapped_set _ j s t'). by rewrite lookup_delete_ne.
Qed.

Lemma get_past_expiry_fails_to_persist_witness :
  let st := after (JSONStorage.setex 10 "k" 5 (VStr "v"))
              (after (JSONStorage.expire 0 "s" 10)
                 (after (JSONStorage.sadd "s" (SInt 1)) fresh)) in
  storage st !! "k" = Some (wrap (VStr "v") 15) /\
  storage st !! "s" = Some (wrap (VSet {[ SInt 1 ]}) 10) /\
  snd (JSONStorage.get 16 "k" st) = Raise TypeError /\
  file (after (JSONStorage.get 16 "k") st) = Garbled.
Proof.
  intros st.
  assert (Hk : storage st !! "k" = Some (wrap (VStr "v") 15))
    by (vm_compute; reflexivity).
  assert (Hs : storage st !! "s" = Some (wrap (VSet {[ SInt 1 ]}) 10))
    by (vm_compute; reflexivity).
  pose proof (get_past_expiry_fails_to_persist st "k" "s" _ 15 16 10 _
                Hk eq_refl ltac:(lia) ltac:(done) Hs) as Hget.
  unfold after. rewrite Hget. by repeat split.
Defined.

(** C7.  [exists] ignores the expiry.  [exists] answers [False] exactly
    when the key is physically absent from the dictionary.  A key present in
    the dictionary is reported as existing whatever is stored under it and
    whatever the time, in particular when its expiry timestamp has passed; a
    [get] at or before the timestamp changes nothing, and once a [get] after
    the timestamp has removed the key, [exists] reports [False]. *)
Theorem exists_ignores_ttl (st : state) (k : string) (now : Z) :
  (snd (JSONStorage.exists_ k st) = Ok false <-> storage st !! k = None) /\
  (forall v,
     storage st !! k = Some v ->
     JSONStorage.exists_ k st = (st, Ok true) /\
     (forall d t,
        v = VDict d ->
        dict_get d "expires_at" = Some (VInt t) ->
        (now <= t -> after (JSONStorage.get now k) st = st) /\
        (t < now ->
         snd (JSONStorage.exists_ k (after (JSONStorage.get now k) st))
         = Ok false))).
Proof.
  split.
  - unfold JSONStorage.exists_. unfold_monad. cbn.
    destruct (storage st !! k) as [v | ]; split; (done || discriminate).
  - intros v Hk. split.
    + unfold JSONStorage.exists_. run_with Hk. reflexivity.
    + intros d t -> Ht. split.
      * intros Hle. unfold after. by rewrite (get_before_expiry st k d t).
      * intros Hlt. unfold after.
        rewrite (get_after_expiry st k d t) by done.
        pose proof (save_storage_keeps_dictionary
                      {| storage := base.delete k (storage st);
                         file := file st |}) as Hs.
        destruct (JSONStorage._save_storage _) as [st' r]. cbn in *.
        unfold JSONStorage.exists_. unfold_monad. cbn.
        rewrite Hs, lookup_delete_eq. reflexivity.
Qed.

Lemma exists_ignores_ttl_witness :
  let st := after (JSONStorage.setex 10 "k" 5 (VStr "v")) fresh in
  JSONStorage.exists_ "k" st = (st, Ok true) /\
  snd (JSONStorage.exists_ "k" (after (JSONStorage.get 99 "k") st)) = Ok false.
Proof.
  intros st.
  assert (Hk : storage st !! "k" = Some (wrap (VStr "v") 15))
    by (vm_compute; reflexivity).
  destruct (exists_ignores_ttl st "k" 99) as [_ Hpresent].
  destruct (Hpresent _ Hk) as [He Hg].
  split; [ exact He | ].
  destruct (Hg _ 15 eq_refl eq_refl) as [_ Hafter]. apply Hafter. lia.
Defined.

(** C8 (counterexample).  A [get] performed exactly at the expiry timestamp
    still returns the value: [setex] at time 90 with a time to live of 10
    expires at 100, and [get] at time 100 returns the value. *)
Lemma get_at_expiry_timestamp_returns_value :
  let st := after (JSONStorage.setex 90 "k" 10 (VStr "v")) fresh in
  storage st !! "k" = Some (wrap (VStr "v") 100) /\
  JSONStorage.get 100 "k" st = (st, Ok (VStr "v")) /\
  snd (JSONStorage.get 100 "k" st) <> Ok VNone.
Proof. vm_compute. repeat split; discriminate. Qed.

(** C8 (amended).  The expiry test of the code is [time.time() > expires_at]:
    a wrapped value is logically present while the current time is at most
    the timestamp.  A [get] at a time equal to or smaller than the timestamp
    returns the inner value.  A [get] at a time strictly greater than the
    timestamp takes the key out of the dictionary and, when the snapshot
    can be written, returns [None]. *)
Theorem expiry_boundary (st : state) (k : string)
    (d : list (string * value)) (v : value) (t now : Z) :
  storage st !! k = Some (VDict d) ->
  dict_get d "value" = Some v ->
  dict_get d "expires_at" = Some (VInt t) ->
  (now <= t -> snd (JSONStorage.get now k st) = Ok v) /\
  (t < now ->
   storage (after (JSONStorage.get now k) st) !! k = None /\
   (is_Some (JSONStorage.encode (base.delete k (storage st))) ->
    snd (JSONStorage.get now k st) = Ok VNone)).
Proof.
  intros Hk Hv Ht. split.
  - intros Hle. rewrite (get_before_expiry st k d t) by done. by rewrite Hv.
  - intros Hlt. split.
    + rewrite (get_after_expiry_removes st k d t now Hk Ht Hlt).
      apply lookup_delete_eq.
    + intros [doc Hdoc].
      by rewrite (get_after_expiry_persisted st k d t now Hk Ht doc).
Qed.

Lemma expiry_boundary_witness :
  let st := after (JSONStorage.setex 90 "k" 10 (VStr "v")) fresh in
  snd (JSONStorage.get 100 "k" st) = Ok (VStr "v") /\
  snd (JSONStorage.get 101 "k" st) = Ok VNone.
Proof.
  intros st.
  assert (Hk : storage st !! "k" = Some (wrap (VStr "v") 100))
    by (vm_compute; reflexivity).
  destruct (expiry_boundary st "k" _ (VStr "v") 100 100 Hk eq_refl eq_refl)
    as [Hat _].
  destruct (expiry_boundary st "k" _ (VStr "v") 100 101 Hk eq_refl eq_refl)
    as [_ Hpast].
  split; [ apply Hat; lia | apply (proj2 (Hpast ltac:(lia))) ].
  exists ∅. vm_compute. reflexivity.
Defined.

(** C9 (counterexample).  A hash built by [hset] with the single field
    [expires_at], read before that timestamp: [get] does not return a field
    [value], it raises [KeyError]. *)
Lemma get_on_hash_without_value_raises :
  let st := after (JSONStorage.hset "k" "expires_at" (VInt 100)) fresh in
  storage st !! "k" = Some (VDict [("expires_at", VInt 100)]) /\
  JSONStorage.get 50 "k" st = (st, Raise KeyError).
Proof. vm_compute. split; reflexivity. Qed.

(** C9 (amended).  [get] treats every dictionary with a field [expires_at]
    holding a number as a wrapper.  After that timestamp [get] deletes the
    key from the dictionary and, when the snapshot can be written, persists
    and returns [None]; up to the timestamp it returns the field [value] of
    the hash when there is one and raises [KeyError] when there is none,
    leaving the engine untouched; [expire] overwrites the field
    [expires_at] of the hash in place. *)
Theorem get_takes_hash_for_wrapper (st : state) (k : string)
    (d : list (string * value)) (t now ttl : Z) :
  storage st !! k = Some (VDict d) ->
  dict_get d "expires_at" = Some (VInt t) ->
  (t < now ->
   storage (after (JSONStorage.get now k) st) = base.delete k (storage st) /\
   forall doc, JSONStorage.encode (base.delete k (storage st)) = Some doc ->
     JSONStorage.get now k st =
       ({| storage := base.delete k (storage st); file := Snapshot doc |},
        Ok VNone)) /\
  (now <= t ->
   JSONStorage.get now k st =
     (st, match dict_get d "value" with
          | Some v => Ok v
          | None => Raise KeyError
          end)) /\
  storage (after (JSONStorage.expire now k ttl) st) =
    <[k := VDict (dict_set d "expires_at" (VInt (now + ttl)))]> (storage st).
Proof.
  intros Hk Ht. split; [ | split ].
  - intros Hlt. split.
    + by apply (get_after_expiry_removes st k d t).
    + intros doc Hdoc. by apply (get_after_expiry_persisted st k d t).
  - intros Hle. by apply (get_before_expiry st k d t).
  - unfold after, JSONStorage.expire. run_with Hk.
    unfold dict_mem. rewrite Ht. cbn.
    match goal with
    | |- context [JSONStorage._save_storage ?s] =>
        pose proof (save_storage_keeps_dictionary s) as Hs;
        destruct (JSONStorage._save_storage s) as [st' [[] | e]]
    end; cbn in *; exact Hs.
Qed.

Lemma get_takes_hash_for_wrapper_witness :
  let st := after (JSONStorage.hset "k" "expires_at" (VInt 100))
              (after (JSONStorage.hset "k" "value" (VStr "inner"))
                 (after (JSONStorage.hset "k" "name" (VStr "ann")) fresh)) in
  JSONStorage.get 200 "k" st =
    ({| storage := ∅; file := Snapshot ∅ |}, Ok VNone) /\
  JSONStorage.get 50 "k" st = (st, Ok (VStr "inner")) /\
  storage (after (JSONStorage.expire 50 "k" 7) st) !! "k" =
    Some (VDict [("name", VStr "ann"); ("value", VStr "inner");
                 ("expires_at", VInt 57)]).
Proof.
  intros st.
  assert (Hk : storage st !! "k" =
               Some (VDict [("name", VStr "ann"); ("value", VStr "inner");
                            ("expires_at", VInt 100)]))
    by (vm_compute; reflexivity).
  destruct (get_takes_hash_for_wrapper st "k" _ 100 200 7 Hk eq_refl)
    as (Hpast & _ & _).
  destruct (get_takes_hash_for_wrapper st "k" _ 100 50 7 Hk eq_refl)
    as (_ & Hahead & Hexp).
  assert (Hdoc : JSONStorage.encode (base.delete "k" (storage st)) = Some ∅)
    by (vm_compute; reflexivity).
  split; [ | split ].
  - rewrite (proj2 (Hpast ltac:(lia)) _ Hdoc). vm_compute. reflexivity.
  - rewrite Hahead by lia. reflexivity.
  - rewrite Hexp. rewrite lookup_insert_eq. reflexivity.
Defined.

(** ** Type enforcement *)

(** C3 (counterexample).  A command for one type applied to a key holding
    another does not always fail: [lpop] on a key holding a string returns
    [None]; and [hset] on a key stored by [setex] succeeds and overwrites the
    wrapped value, because the wrapper is itself a dictionary. *)
Lemma wrong_type_is_not_always_refused :
  let s1 := holding "k" (VStr "text") in
  let s2 := after (JSONStorage.setex 0 "k" 10 (VStr "v")) fresh in
  JSONStorage.lpop "k" s1 = (s1, Ok VNone) /\
  is_raise (snd (JSONStorage.lpop "k" s1)) = false /\
  storage s2 !! "k" = Some (wrap (VStr "v") 10) /\
  snd (JSONStorage.hset "k" "value" (VStr "other") s2) = Ok () /\
  storage (after (JSONStorage.hset "k" "value" (VStr "other")) s2) !! "k"
    = Some (wrap (VStr "other") 10).
Proof. vm_compute. repeat split; reflexivity. Qed.

(** C3 (amended).  On a key holding an object of another Python type, the
    mutating commands [hset] and [hincrby] (object not a dictionary),
    [incrby] and [decrby] (not an int), [append] (not a str), [sadd] (not a
    set), [lpush] and [rpush] (not a list) raise [TypeError] and leave the
    dictionary and the file unchanged; [lpop] and [rpop] return [None], and
    the queries [llen], [lindex], [lrange], [scard] and [hlen] return their
    default, also without changing anything.  A wrapper with an expiry is a
    dictionary and counts as a hash. *)
Theorem type_enforcement (st : state) (k f : string) (v w : value)
    (n i j : Z) (x : scalar) :
  storage st !! k = Some v ->
  (kind_of v <> KDict ->
     JSONStorage.hset k f w st = (st, Raise TypeError) /\
     JSONStorage.hincrby k f n st = (st, Raise TypeError) /\
     JSONStorage.hlen k st = (st, Ok 0)) /\
  (kind_of v <> KInt ->
     JSONStorage.incrby k n st = (st, Raise TypeError) /\
     JSONStorage.decrby k n st = (st, Raise TypeError)) /\
  (kind_of v <> KStr -> JSONStorage.append k w st = (st, Raise TypeError)) /\
  (kind_of v <> KSet ->
     JSONStorage.sadd k x st = (st, Raise TypeError) /\
     JSONStorage.scard k st = (st, Ok 0)) /\
  (kind_of v <> KList ->
     JSONStorage.lpush k w st = (st, Raise TypeError) /\
     JSONStorage.rpush k w st = (st, Raise TypeError) /\
     JSONStorage.lpop k st = (st, Ok VNone) /\
     JSONStorage.rpop k st = (st, Ok VNone) /\
     JSONStorage.llen k st = (st, Ok 0) /\
     JSONStorage.lindex k i st = (st, Ok VNone) /\
     JSONStorage.lrange k i j st = (st, Ok [])).
Proof.
  intros Hk. repeat apply conj; intros Hv.
  - repeat apply conj.
    + by apply (hset_wrong_type st k v).
    + by apply (hincrby_wrong_type st k v).
    + by apply (hlen_wrong_type st k v).
  - split.
    + by apply (incrby_wrong_type st k v).
    + by apply (decrby_wrong_type st k v).
  - by apply (append_wrong_type st k v).
  - split.
    + by apply (sadd_wrong_type st k v).
    + by apply (scard_wrong_type st k v).
  - destruct (pop_wrong_type st k v Hk Hv) as [Hl Hr].
    destruct (list_queries_wrong_type st k v Hk i j Hv) as (H1 & H2 & H3).
    repeat apply conj; try done.
    + by apply (lpush_wrong_type st k v).
    + by apply (rpush_wrong_type st k v).
Qed.

Lemma type_enforcement_witness :
  let s1 := holding "k" (VStr "text") in
  let s2 := holding "k" (VList [VInt 1]) in
  (JSONStorage.hset "k" "f" (VInt 1) s1 = (s1, Raise TypeError) /\
   JSONStorage.hincrby "k" "f" 1 s1 = (s1, Raise TypeError) /\
   JSONStorage.incrby "k" 1 s1 = (s1, Raise TypeError) /\
   JSONStorage.sadd "k" (SInt 1) s1 = (s1, Raise TypeError) /\
   JSONStorage.lpush "k" (VInt 1) s1 = (s1, Raise TypeError) /\
   JSONStorage.lpop "k" s1 = (s1, Ok VNone)) /\
  JSONStorage.append "k" (VStr "x") s2 = (s2, Raise TypeError).
Proof.
  intros s1 s2.
  assert (H1 : storage s1 !! "k" = Some (VStr "text")) by reflexivity.
  assert (H2 : storage s2 !! "k" = Some (VList [VInt 1])) by reflexivity.
  pose proof (type_enforcement s1 "k" "f" (VStr "text") (VInt 1) 1 0 0
                (SInt 1) H1) as (Hd & Hi & _ & Hs & Hl).
  pose proof (type_enforcement s2 "k" "f" (VList [VInt 1]) (VStr "x") 1 0 0
                (SInt 1) H2) as (_ & _ & Ha & _).
  split; [ repeat apply conj | ].
  - apply Hd. discriminate.
  - apply Hd. discriminate.
  - apply Hi. discriminate.
  - apply Hs. discriminate.
  - apply Hl. discriminate.
  - apply Hl. discriminate.
  - apply Ha. discriminate.
Defined.

(** ** The snapshot round trip *)

(** Induction over objects and documents, with the hypothesis available
    for every item of a list and every field of a dictionary. *)
Lemma value_nested_ind (P : value -> Prop) :
  P VNone -> (forall z, P (VInt z)) -> (forall s, P (VStr s)) ->
  (forall l, Forall P l -> P (VList l)) ->
  (forall l, Forall P l -> P (VTuple l)) ->
  (forall s, P (VSet s)) ->
  (forall d, Forall (fun kv => P (snd kv)) d -> P (VDict d)) ->
  forall v, P v.
Proof.
  intros HN HI HS HL HT HSet HD.
  fix IH 1. intros [ | z | s | l | l | s | d ].
  - exact HN.
  - apply HI.
  - apply HS.
  - apply HL. induction l as [ | x l IHl ]; constructor; [ apply IH | exact IHl ].
  - apply HT. induction l as [ | x l IHl ]; constructor; [ apply IH | exact IHl ].
  - apply HSet.
  - apply HD. induction d as [ | [k x] d IHd ]; constructor;
      [ apply IH | exact IHd ].
Qed.

Lemma json_nested_ind (P : json -> Prop) :
  P JNull -> (forall z, P (JInt z)) -> (forall s, P (JStr s)) ->
  (forall l, Forall P l -> P (JArr l)) ->
  (forall d, Forall (fun kv => P (snd kv)) d -> P (JObj d)) ->
  forall j, P j.
Proof.
  intros HN HI HS HA HO.
  fix IH 1. intros [ | z | s | l | d ].
  - exact HN.
  - apply HI.
  - apply HS.
  - apply HA. induction l as [ | x l IHl ]; constructor; [ apply IH | exact IHl ].
  - apply HO. induction d as [ | [k x] d IHd ]; constructor;
      [ apply IH | exact IHd ].
Qed.

(** [json.load] after [json.dump] gives back an object without tuples. *)
Lemma load_dump (v : value) :
  forall j, tuple_free v = true -> dump v = Some j -> load j = v.
Proof.
  induction v as [ | z | s | l IH | l IH | s | d IH ] using value_nested_ind;
    intros j Hfree Hdump; cbn in *; simplify_eq; try reflexivity.
  - destruct (mapM dump l) as [js | ] eqn:Hjs; cbn in Hdump; simplify_eq.
    cbn. f_equal. apply mapM_Some in Hjs.
    induction Hjs as [ | x jx l js Hx Hjs IHl ]; [ reflexivity | ].
    cbn in Hfree. apply andb_prop in Hfree as [Hfx Hfl].
    inversion IH as [ | ? ? IHx IHl' ]; subst.
    cbn. f_equal; [ by apply IHx | by apply IHl ].
  - destruct (mapM _ d) as [js | ] eqn:Hjs; cbn in Hdump; simplify_eq.
    cbn. f_equal. apply mapM_Some in Hjs.
    induction Hjs as [ | [k x] [k' jx] d js Hx Hjs IHd ]; [ reflexivity | ].
    cbn in Hfree. apply andb_prop in Hfree as [Hfx Hfd].
    inversion IH as [ | ? ? IHx IHd' ]; subst. cbn in IHx.
    destruct (dump x) as [jx' | ] eqn:Hjx; cbn in Hx; simplify_eq.
    cbn. f_equal; [ f_equal; by apply IHx | by apply IHd ].
Qed.

(** [json.dump] after [json.load] gives back the document: every loaded
    object is serializable. *)
Lemma dump_load (j : json) : dump (load j) = Some j.
Proof.
  induction j as [ | z | s | l IH | d IH ] using json_nested_ind;
    cbn; try reflexivity.
  - assert (H : mapM dump (load <$> l) = Some l).
    { induction l as [ | x l IHl ]; [ reflexivity | ].
      inversion IH as [ | ? ? IHx IHl' ]; subst.
      cbn. rewrite IHx. cbn. rewrite IHl by done. reflexivity. }
    by rewrite H.
  - match goal with |- _ <$> ?m = _ => assert (H : m = Some d) end.
    { induction d as [ | [k x] d IHd ]; [ reflexivity | ].
      inversion IH as [ | ? ? IHx IHd' ]; subst. cbn in IHx.
      cbn. rewrite IHx. cbn. rewrite IHd by done. reflexivity. }
    by rewrite H.
Qed.

(** *** Sets and lists of primitives *)

Lemma to_scalar_of_scalar (x : scalar) : to_scalar (of_scalar x) = Some x.
Proof. by destruct x. Qed.

Lemma all_primitive_scalars (xs : list scalar) :
  JSONStorage.all_primitive (of_scalar <$> xs) = true.
Proof.
  induction xs as [ | x xs IH ]; [ reflexivity | ].
  cbn. rewrite to_scalar_of_scalar. exact IH.
Qed.

Lemma omap_to_scalar_scalars (xs : list scalar) :
  omap to_scalar (of_scalar <$> xs) = xs.
Proof.
  induction xs as [ | x xs IH ]; [ reflexivity | ].
  cbn. rewrite to_scalar_of_scalar. cbn. by rewrite IH.
Qed.

Lemma tuple_free_scalars (xs : list scalar) :
  forallb tuple_free (of_scalar <$> xs) = true.
Proof. induction xs as [ | [] xs IH ]; [ reflexivity | exact IH | exact IH ]. Qed.

Lemma dump_scalars (xs : list scalar) :
  is_Some (dump (VList (of_scalar <$> xs))).
Proof.
  cbn. assert (H : is_Some (mapM dump (of_scalar <$> xs))).
  { induction xs as [ | x xs [js IH] ]; [ by eexists | ].
    cbn. rewrite IH. destruct x; by eexists. }
  destruct H as [js ->]. by eexists.
Qed.

(** *** One entry of the snapshot *)

Lemma load_entry_dump_entry (v : value) (j : json) :
  stable v = true -> JSONStorage.dump_entry v = Some j ->
  JSONStorage.load_entry j = v.
Proof.
  unfold stable. intros [Hfree Hprim]%andb_prop Hdump.
  apply negb_true_iff in Hprim. unfold JSONStorage.load_entry.
  destruct v as [ | z | s | l | l | s | d ]; try discriminate;
    cbn [JSONStorage.dump_entry] in Hdump.
  - by rewrite (load_dump _ _ Hfree Hdump).
  - by rewrite (load_dump _ _ Hfree Hdump).
  - by rewrite (load_dump _ _ Hfree Hdump).
  - rewrite (load_dump _ _ Hfree Hdump). cbn in Hprim. by rewrite Hprim.
  - rewrite (load_dump (VList (of_scalar <$> elements s)) j
               (tuple_free_scalars _) Hdump).
    rewrite all_primitive_scalars, omap_to_scalar_scalars.
    f_equal. apply list_to_set_elements_L.
  - by rewrite (load_dump _ _ Hfree Hdump).
Qed.

(** Every entry of a loaded dictionary can be written again. *)
Lemma dump_entry_load_entry (j : json) :
  is_Some (JSONStorage.dump_entry (JSONStorage.load_entry j)).
Proof.
  unfold JSONStorage.load_entry.
  pose proof (dump_load j) as Hj.
  destruct (load j) as [ | z | s | l | l | s | d ] eqn:Hl;
    try (exists j; exact Hj); try discriminate.
  destruct (JSONStorage.all_primitive l).
  - apply dump_scalars.
  - exists j. exact Hj.
Qed.

(** *** The whole dictionary *)

Lemma encode_lookup (m : gmap string value) (doc : gmap string json)
    (k : string) :
  JSONStorage.encode m = Some doc ->
  doc !! k = m !! k ≫= JSONStorage.dump_entry /\
  (forall v, m !! k = Some v -> is_Some (JSONStorage.dump_entry v)).
Proof.
  unfold JSONStorage.encode. case_decide as Hall; [ | discriminate ].
  intros [= <-]. split; [ apply lookup_omap | ].
  intros v Hv. exact (Hall k v Hv).
Qed.

Lemma encode_delete (m : gmap string value) (k : string) :
  is_Some (JSONStorage.encode m) ->
  is_Some (JSONStorage.encode (base.delete k m)).
Proof.
  unfold JSONStorage.encode. intros [doc H].
  case_decide as Hall; [ | discriminate ].
  rewrite decide_True; [ by eexists | ]. by apply map_Forall_delete.
Qed.

Lemma encode_loaded (doc : gmap string json) :
  is_Some (JSONStorage.encode (JSONStorage.load_entry <$> doc)).
Proof.
  unfold JSONStorage.encode. rewrite decide_True; [ by eexists | ].
  intros k v. rewrite lookup_fmap. intros Hv.
  destruct (doc !! k) as [j | ]; cbn in Hv; simplify_eq.
  apply dump_entry_load_entry.
Qed.

Lemma reopen_inv (st st' : state) :
  reopen st = Ok st' ->
  exists doc, JSONStorage.encode (storage st) = Some doc /\
              storage st' = JSONStorage.load_entry <$> doc.
Proof.
  unfold reopen, JSONStorage._save_storage.
  destruct (JSONStorage.encode (storage st)) as [doc | ]; [ | discriminate ].
  cbn. intros [= <-]. by exists doc.
Qed.

(** A key holding a stable object, or no object, reads the same after the
    round trip. *)
Lemma reopen_lookup_stable (st st' : state) (k : string) :
  reopen st = Ok st' ->
  (forall v, storage st !! k = Some v -> stable v = true) ->
  storage st' !! k = storage st !! k.
Proof.
  intros (doc & Hdoc & ->)%reopen_inv Hstable.
  destruct (encode_lookup _ _ k Hdoc) as [Hlook Hsome].
  rewrite lookup_fmap, Hlook.
  destruct (storage st !! k) as [v | ]; [ | reflexivity ].
  destruct (Hsome v eq_refl) as [j Hj]. cbn. rewrite Hj. cbn.
  f_equal. apply load_entry_dump_entry; [ by apply Hstable | done ].
Qed.

(** *** What the five queries return depends on the entry under the key *)

Lemma get_result_by_lookup (st st' : state) (k : string) (now : Z) :
  storage st' !! k = storage st !! k ->
  is_Some (JSONStorage.encode (base.delete k (storage st))) ->
  is_Some (JSONStorage.encode (base.delete k (storage st'))) ->
  snd (JSONStorage.get now k st') = snd (JSONStorage.get now k st).
Proof.
  intros Hk [doc Hdoc] [doc' Hdoc'].
  unfold JSONStorage.get. unfold_monad. cbn. rewrite Hk.
  destruct (storage st !! k) as [ [ | | | | | | d ] | ]; try reflexivity.
  destruct (dict_mem "expires_at" d); [ | reflexivity ].
  destruct (dict_get d "expires_at") as [t | ]; [ | reflexivity ].
  destruct (py_clock_gt now t) as [[ | ] | e]; try reflexivity.
  unfold JSONStorage._save_storage. cbn. by rewrite Hdoc, Hdoc'.
Qed.

Lemma query_results_by_lookup (st st' : state) (k : string) :
  storage st' !! k = storage st !! k ->
  snd (JSONStorage.smembers k st') = snd (JSONStorage.smembers k st) /\
  (forall f, snd (JSONStorage.hget k f st') = snd (JSONStorage.hget k f st)) /\
  (forall i j,
     snd (JSONStorage.lrange k i j st') = snd (JSONStorage.lrange k i j st)) /\
  (forall i j,
     snd (JSONStorage.zrange k i j st') = snd (JSONStorage.zrange k i j st)).
Proof.
  intros Hk.
  unfold JSONStorage.smembers, JSONStorage.hget, JSONStorage.lrange,
    JSONStorage.zrange.
  unfold_monad. cbn. rewrite Hk.
  repeat apply conj; intros;
    destruct (storage st !! k) as [ [ | | | | | | ] | ]; try reflexivity;
    match goal with
    | |- context [py_contains ?c ?x] =>
        destruct (py_contains c x) as [[ | ] | ]; reflexivity
    end.
Qed.

(** *** Scored lists *)

Lemma mapM_result_fmap {A B C} (f : B -> result C) (g : A -> B) (l : list A) :
  mapM f (g <$> l) = mapM (fun x => f (g x)) l.
Proof. induction l as [ | x l IH ]; [ reflexivity | ]. cbn. by rewrite IH. Qed.

Lemma mapM_result_ext {A B} (f g : A -> result B) (l : list A) :
  Forall (fun x => f x = g x) l -> mapM f l = mapM g l.
Proof.
  induction 1 as [ | x l Hx Hl IH ]; [ reflexivity | ].
  cbn. by rewrite Hx, IH.
Qed.

Lemma py_slice_fmap {A B} (f : A -> B) (l : list A) (i j : Z) :
  py_slice (f <$> l) i j = f <$> py_slice l i j.
Proof.
  unfold py_slice. rewrite length_fmap, fmap_take, fmap_drop. reflexivity.
Qed.

Lemma py_slice_Forall {A} (P : A -> Prop) (l : list A) (i j : Z) :
  Forall P l -> Forall P (py_slice l i j).
Proof. intros H. unfold py_slice. by apply Forall_take, Forall_drop. Qed.

Lemma unpack2_tuple_to_list (it : value) :
  is_scored_item it = true -> unpack2 (tuple_to_list it) = unpack2 it.
Proof. destruct it as [ | | | | l | | ]; try discriminate. reflexivity. Qed.

(** The array written for a scored list, and the list read back from it. *)
Lemma dump_scored_items (l : list value) :
  forallb is_scored_item l = true ->
  exists js, mapM dump l = Some js /\ load <$> js = tuple_to_list <$> l.
Proof.
  induction l as [ | it l IH ]; intros Hl.
  - exists []. by split.
  - cbn in Hl. apply andb_prop in Hl as [Hit Hl].
    destruct (IH Hl) as (js & Hjs & Hload).
    destruct it as [ | | | | [ | [ | s | | | | | ] [ | m [ | ? ? ] ] ] | | ];
      try discriminate;
      destruct m as [ | z | z | | | | ]; try discriminate;
      cbn; rewrite Hjs; cbn; eexists; (split; [ reflexivity | ]);
      cbn; by rewrite Hload.
Qed.

Lemma reopen_lookup_scored (st st' : state) (k : string) (l : list value) :
  reopen st = Ok st' ->
  storage st !! k = Some (VList l) ->
  l <> [] ->
  forallb is_scored_item l = true ->
  storage st' !! k = Some (VList (tuple_to_list <$> l)).
Proof.
  intros (doc & Hdoc & ->)%reopen_inv Hk Hne Hl.
  destruct (encode_lookup _ _ k Hdoc) as [Hlook _].
  rewrite lookup_fmap, Hlook, Hk. cbn.
  destruct (dump_scored_items l Hl) as (js & Hjs & Hload).
  rewrite Hjs. cbn. unfold JSONStorage.load_entry. cbn. rewrite Hload.
  destruct l as [ | it l ]; [ done | ].
  cbn in Hl. apply andb_prop in Hl as [Hit _].
  destruct it as [ | | | | ? | | ]; try discriminate. reflexivity.
Qed.

(** A list of primitives comes back as the set of its items. *)
Lemma reopen_lookup_primitive (st st' : state) (k : string) (l : list value) :
  reopen st = Ok st' ->
  storage st !! k = Some (VList l) ->
  JSONStorage.all_primitive l = true ->
  storage st' !! k = Some (VSet (list_to_set (omap to_scalar l))).
Proof.
  intros (doc & Hdoc & ->)%reopen_inv Hk Hl.
  destruct (encode_lookup _ _ k Hdoc) as [Hlook Hsome].
  rewrite lookup_fmap, Hlook, Hk. cbn.
  destruct (Hsome _ Hk) as [j Hj]. cbn in Hj. rewrite Hj. cbn.
  assert (Hfree : tuple_free (VList l) = true).
  { cbn. clear -Hl. induction l as [ | it l IH ]; [ reflexivity | ].
    cbn in Hl. destruct (to_scalar it) eqn:Hit; [ | discriminate ].
    cbn. rewrite (IH Hl). by destruct it. }
  unfold JSONStorage.load_entry.
  rewrite (load_dump (VList l) j Hfree Hj). by rewrite Hl.
Qed.

Lemma py_slice_nil {A} (i j : Z) : py_slice (@nil A) i j = [].
Proof. unfold py_slice. by rewrite drop_nil, take_nil. Qed.

Lemma zrange_scored_after_reopen (st st' : state) (k : string)
    (l : list value) (i j : Z) :
  reopen st = Ok st' ->
  storage st !! k = Some (VList l) ->
  forallb is_scored_item l = true ->
  snd (JSONStorage.zrange k i j st') = snd (JSONStorage.zrange k i j st).
Proof.
  intros Hre Hk Hl. unfold JSONStorage.zrange. unfold_monad. cbn.
  rewrite Hk. destruct (decide (l = [])) as [-> | Hne].
  - rewrite (reopen_lookup_primitive st st' k [] Hre Hk eq_refl).
    cbn. by rewrite py_slice_nil.
  - rewrite (reopen_lookup_scored st st' k _ Hre Hk Hne Hl).
    cbn [snd lift].
    rewrite py_slice_fmap, mapM_result_fmap.
    apply mapM_result_ext, py_slice_Forall.
    apply Forall_forall. intros x Hx. rewrite unpack2_tuple_to_list; [ done | ].
    rewrite forallb_forall in Hl. apply Hl. by apply list_elem_of_In.
Qed.

(** C1 (counterexample).  The scored list built by [zadd] holds a tuple;
    the snapshot gives it back as a list, so after the round trip [get] and
    [lrange] no longer return what they returned before, although the key
    does not hold a list of primitives.  And the state reached by [sadd]
    followed by [expire] has no round trip at all: [expire] wraps the set in
    a dictionary, which the encoder refuses. *)
Lemma scored_list_is_not_preserved :
  let st := after (JSONStorage.zadd "z" 1 (SStr "x")) fresh in
  let st2 := after (JSONStorage.expire 0 "s" 10)
               (after (JSONStorage.sadd "s" (SInt 1)) fresh) in
  (exists st',
     reopen st = Ok st' /\
     snd (JSONStorage.get 0 "z" st) = Ok (VList [VTuple [VInt 1; VStr "x"]]) /\
     snd (JSONStorage.get 0 "z" st') = Ok (VList [VList [VInt 1; VStr "x"]]) /\
     snd (JSONStorage.get 0 "z" st') <> snd (JSONStorage.get 0 "z" st) /\
     snd (JSONStorage.lrange "z" 0 0 st')
     <> snd (JSONStorage.lrange "z" 0 0 st)) /\
  storage st2 !! "s" = Some (wrap (VSet {[ SInt 1 ]}) 10) /\
  reopen st2 = Raise TypeError.
Proof.
  split.
  - eexists. split; [ vm_compute; reflexivity | ].
    vm_compute. repeat split; discriminate.
  - vm_compute. split; reflexivity.
Qed.

(** C1 (amended).  Let the snapshot of an engine be written and loaded into
    a fresh engine.  At every key that is absent or holds an object without
    tuples that is not a list of ints and strs only, [get], [smembers],
    [hget], [lrange] and [zrange] return in the fresh engine what they
    return in the original one.  On a scored list (a list of (score, member)
    tuples) [zrange] also returns the same, while the list itself comes back
    with two-element lists in place of the tuples.  A list whose items are
    all ints or strs comes back as the set of its items. *)
Theorem snapshot_round_trip (st st' : state) (k : string) (now : Z) :
  reopen st = Ok st' ->
  ((forall v, storage st !! k = Some v -> stable v = true) ->
     snd (JSONStorage.get now k st') = snd (JSONStorage.get now k st) /\
     snd (JSONStorage.smembers k st') = snd (JSONStorage.smembers k st) /\
     (forall f,
        snd (JSONStorage.hget k f st') = snd (JSONStorage.hget k f st)) /\
     (forall i j,
        snd (JSONStorage.lrange k i j st')
        = snd (JSONStorage.lrange k i j st)) /\
     (forall i j,
        snd (JSONStorage.zrange k i j st')
        = snd (JSONStorage.zrange k i j st))) /\
  (forall l,
     storage st !! k = Some (VList l) ->
     forallb is_scored_item l = true ->
     (forall i j,
        snd (JSONStorage.zrange k i j st')
        = snd (JSONStorage.zrange k i j st)) /\
     (l <> [] -> storage st' !! k = Some (VList (tuple_to_list <$> l)))) /\
  (forall l,
     storage st !! k = Some (VList l) ->
     JSONStorage.all_primitive l = true ->
     storage st' !! k = Some (VSet (list_to_set (omap to_scalar l)))).
Proof.
  intros Hre. split; [ | split ].
  - intros Hstable.
    pose proof (reopen_lookup_stable st st' k Hre Hstable) as Hk.
    split; [ | by apply query_results_by_lookup ].
    destruct (reopen_inv st st' Hre) as (doc & Hdoc & Hst').
    apply get_result_by_lookup; [ done | | ].
    + apply encode_delete. by exists doc.
    + rewrite Hst'. apply encode_delete, encode_loaded.
  - intros l Hk Hl. split.
    + intros i j. by apply (zrange_scored_after_reopen st st' k l).
    + intros Hne. by apply (reopen_lookup_scored st).
  - intros l Hk Hl. by apply (reopen_lookup_primitive st).
Qed.

Lemma snapshot_round_trip_witness :
  let st := after (JSONStorage.zadd "z" 1 (SStr "x"))
              (after (JSONStorage.sadd "s" (SInt 1))
                 (after (JSONStorage.hset "h" "f" (VStr "v")) fresh)) in
  exists st',
    reopen st = Ok st' /\
    snd (JSONStorage.smembers "s" st') = snd (JSONStorage.smembers "s" st) /\
    snd (JSONStorage.hget "h" "f" st') = Ok (VStr "v") /\
    snd (JSONStorage.zrange "z" 0 0 st') = Ok [VStr "x"].
Proof.
  intros st.
  assert (Hre : exists st', reopen st = Ok st').
  { eexists. vm_compute. reflexivity. }
  destruct Hre as [st' Hre]. exists st'. split; [ exact Hre | ].
  assert (Hs : forall v, storage st !! "s" = Some v -> stable v = true).
  { intros v Hv. vm_compute in Hv. injection Hv as <-. vm_compute. reflexivity. }
  assert (Hh : forall v, storage st !! "h" = Some v -> stable v = true).
  { intros v Hv. vm_compute in Hv. injection Hv as <-. vm_compute. reflexivity. }
  assert (Hz : storage st !! "z" = Some (VList [VTuple [VInt 1; VStr "x"]]))
    by (vm_compute; reflexivity).
  destruct (snapshot_round_trip st st' "s" 0 Hre) as [Hstable _].
  destruct (Hstable Hs) as (_ & Hmem & _).
  destruct (snapshot_round_trip st st' "h" 0 Hre) as [Hstable' _].
  destruct (Hstable' Hh) as (_ & _ & Hhget & _).
  destruct (snapshot_round_trip st st' "z" 0 Hre) as (_ & Hscored & _).
  destruct (Hscored _ Hz eq_refl) as [Hzr _].
  split; [ exact Hmem | split ].
  - rewrite Hhget. vm_compute. reflexivity.
  - rewrite Hzr. vm_compute. reflexivity.
Defined.

(** * Further properties of the commands *)

Set Warnings "-clear-no-such-hyp".

(** ** The file follows the dictionary *)

Lemma ends_saved_save : ends_saved JSONStorage._save_storage.
Proof.
  intros st st' a. unfold JSONStorage._save_storage.
  destruct (JSONStorage.encode (storage st)) as [doc | ] eqn:Hdoc;
    intros [= <-]. by exists doc.
Qed.

Lemma ends_saved_bind_r {A B} (m : M A) (f : A -> M B) :
  (forall a, ends_saved (f a)) -> ends_saved (m ≫= f).
Proof.
  intros Hf st st' b. unfold mbind, M_bind.
  destruct (m st) as [st1 [a | e]]; [ apply Hf | discriminate ].
Qed.

Lemma ends_saved_bind_l {A B} (m : M A) (f : A -> M B) :
  ends_saved m -> (forall a, read_only (f a)) -> ends_saved (m ≫= f).
Proof.
  intros Hm Hf st st' b. unfold mbind, M_bind.
  destruct (m st) as [st1 [a | e]] eqn:Hst; [ | discriminate ].
  intros Hfa. pose proof (Hf a st1) as Hro. rewrite Hfa in Hro. cbn in Hro.
  subst st'. by apply (Hm st st1 a).
Qed.

Lemma ends_saved_raise {A} (e : exn) : ends_saved (raise e : M A).
Proof. intros st st' a. discriminate. Qed.

Lemma persists_of_ends_saved {A} (m : M A) :
  ends_saved m -> persists_on_success m.
Proof. intros Hm st st' a H. right. by apply (Hm st st' a). Qed.

Lemma persists_of_read_only {A} (m : M A) :
  read_only m -> persists_on_success m.
Proof. intros Hm st st' a H. left. specialize (Hm st). by rewrite H in Hm. Qed.

Lemma persists_bind_read_only {A B} (m : M A) (f : A -> M B) :
  read_only m -> (forall a, persists_on_success (f a)) ->
  persists_on_success (m ≫= f).
Proof.
  intros Hm Hf st st' b. unfold mbind, M_bind.
  specialize (Hm st). destruct (m st) as [st1 [a | e]]; cbn in Hm; subst st1.
  - apply Hf.
  - discriminate.
Qed.

Lemma read_only_item (key : string) : read_only (item key).
Proof. intros st. unfold item. by destruct (storage st !! key). Qed.

Ltac frame_with_item := repeat first [ apply read_only_item | frame_step ].

Ltac saved_step :=
  first
    [ apply ends_saved_save
    | apply ends_saved_raise
    | apply ends_saved_bind_l;
      [ apply ends_saved_save | intros ?; solve [frame_with_item] ]
    | apply ends_saved_bind_r; intros ?
    | match goal with
      | |- ends_saved (match ?x with _ => _ end) => destruct x
      | |- ends_saved (if ?b then _ else _) => destruct b
      end ].

Ltac persists_step :=
  first
    [ apply persists_of_read_only; solve [frame]
    | apply persists_of_ends_saved; solve [repeat saved_step]
    | apply persists_bind_read_only; [ solve [frame] | intros ? ]
    | match goal with
      | |- persists_on_success (match ?x with _ => _ end) => destruct x
      | |- persists_on_success (if ?b then _ else _) => destruct b
      end ].

Ltac persists := repeat persists_step.

(** X2.  Whenever a mutating command returns normally, either it has
    changed nothing at all (neither the dictionary nor the file), or the
    file holds the snapshot of the dictionary it leaves behind. *)
Theorem successful_commands_leave_file_in_step (k k2 f : string) (v : value)
    (x : scalar) (now ttl n : Z) :
  persists_on_success (JSONStorage.set k v) /\
  persists_on_success (JSONStorage.setex now k ttl v) /\
  persists_on_success (JSONStorage.get now k) /\
  persists_on_success (JSONStorage.delete k) /\
  persists_on_success (JSONStorage.sadd k x) /\
  persists_on_success (JSONStorage.srem k x) /\
  persists_on_success (JSONStorage.hset k f v) /\
  persists_on_success (JSONStorage.hdel k f) /\
  persists_on_success (JSONStorage.hincrby k f n) /\
  persists_on_success (JSONStorage.lpush k v) /\
  persists_on_success (JSONStorage.rpush k v) /\
  persists_on_success (JSONStorage.lpop k) /\
  persists_on_success (JSONStorage.rpop k) /\
  persists_on_success (JSONStorage.expire now k ttl) /\
  persists_on_success (JSONStorage.incrby k n) /\
  persists_on_success (JSONStorage.decrby k n) /\
  persists_on_success (JSONStorage.rename k k2) /\
  persists_on_success (JSONStorage.append k v) /\
  persists_on_success (JSONStorage.zadd k n x).
Proof.
  repeat apply conj.
  - unfold JSONStorage.set. persists.
  - unfold JSONStorage.setex. persists.
  - unfold JSONStorage.get. persists.
  - unfold JSONStorage.delete. persists.
  - unfold JSONStorage.sadd. persists.
  - unfold JSONStorage.srem. persists.
  - unfold JSONStorage.hset. persists.
  - unfold JSONStorage.hdel. persists.
  - unfold JSONStorage.hincrby. persists.
  - unfold JSONStorage.lpush. persists.
  - unfold JSONStorage.rpush. persists.
  - unfold JSONStorage.lpop. persists.
  - unfold JSONStorage.rpop. persists.
  - unfold JSONStorage.expire. persists.
  - unfold JSONStorage.incrby. persists.
  - unfold JSONStorage.decrby, JSONStorage.incrby. persists.
  - unfold JSONStorage.rename. persists.
  - unfold JSONStorage.append. persists.
  - unfold JSONStorage.zadd. persists.
Qed.

(** ** A second round trip changes nothing *)

Lemma tuple_free_load (j : json) : tuple_free (load j) = true.
Proof.
  induction j as [ | z | s | l IH | d IH ] using json_nested_ind;
    cbn; try reflexivity.
  - induction IH as [ | x l Hx Hl IHl ]; [ reflexivity | ].
    cbn. by rewrite Hx, IHl.
  - induction IH as [ | [k x] d Hx Hd IHd ]; [ reflexivity | ].
    cbn in *. by rewrite Hx, IHd.
Qed.

Lemma stable_load_entry (j : json) : stable (JSONStorage.load_entry j) = true.
Proof.
  unfold JSONStorage.load_entry. pose proof (tuple_free_load j) as Hfree.
  destruct (load j) as [ | z | s | l | l | s | d ] eqn:Hl;
    try (unfold stable; by rewrite Hfree).
  destruct (JSONStorage.all_primitive l) eqn:Hprim; [ reflexivity | ].
  unfold stable. rewrite Hfree. cbn. by rewrite Hprim.
Qed.

(** X3.  The dictionary of a freshly loaded engine is a fixed point of the
    round trip: its snapshot can always be written, and loading that
    snapshot gives the same dictionary again. *)
Theorem reopen_twice (st st1 : state) :
  reopen st = Ok st1 ->
  exists st2, reopen st1 = Ok st2 /\ storage st2 = storage st1.
Proof.
  intros Hre. destruct (reopen_inv st st1 Hre) as (doc & Hdoc & Hst1).
  destruct (encode_loaded doc) as [doc2 Hdoc2]. rewrite <- Hst1 in Hdoc2.
  assert (Hre1 : reopen st1 =
                 Ok {| storage := JSONStorage.load_entry <$> doc2;
                       file := Snapshot doc2 |}).
  { unfold reopen, JSONStorage._save_storage. by rewrite Hdoc2. }
  eexists. split; [ exact Hre1 | ].
  apply map_eq. intros k.
  apply (reopen_lookup_stable st1 _ k Hre1).
  intros v. rewrite Hst1, lookup_fmap.
  destruct (doc !! k) as [j | ]; cbn; [ | discriminate ].
  intros [= <-]. apply stable_load_entry.
Qed.

Lemma reopen_twice_witness :
  let st := after (JSONStorage.rpush "l" (VStr "a"))
              (after (JSONStorage.zadd "z" 1 (SStr "x")) fresh) in
  exists st1 st2,
    reopen st = Ok st1 /\ reopen st1 = Ok st2 /\ storage st2 = storage st1.
Proof.
  intros st.
  assert (Hre : exists st1, reopen st = Ok st1).
  { eexists. vm_compute. reflexivity. }
  destruct Hre as [st1 Hre].
  destruct (reopen_twice st st1 Hre) as (st2 & Hre2 & Heq).
  by exists st1, st2.
Defined.

(** ** Listing the keys *)

(** X4.  [keys] changes nothing and returns every key of the dictionary
    that matches the pattern, each exactly once, and nothing else. *)
Theorem keys_are_the_matching_keys (fnmatch : string -> string -> bool)
    (pattern : string) (st : state) :
  exists l,
    JSONStorage.keys fnmatch pattern st = (st, Ok l) /\
    NoDup l /\
    forall key,
      key ∈ l <-> is_Some (storage st !! key) /\ fnmatch key pattern = true.
Proof.
  eexists. split; [ reflexivity | ]. split.
  - apply NoDup_filter, NoDup_fst_map_to_list.
  - intros key. rewrite list_elem_of_filter, list_elem_of_fmap. split.
    + intros [Hm ([k' v] & -> & Hin)]. split; [ | done ].
      apply elem_of_map_to_list in Hin. by exists v.
    + intros [[v Hv] Hm]. split; [ done | ].
      exists (key, v). split; [ done | ]. by apply elem_of_map_to_list.
Qed.

(** ** Storing and reading back *)

Ltac elim_save :=
  match goal with
  | |- context [JSONStorage._save_storage ?s] =>
      let Hs := fresh "Hs" in
      pose proof (save_storage_keeps_dictionary s) as Hs;
      destruct (JSONStorage._save_storage s) as [? [[] | ?]]; cbn in *
  end.

Ltac after_save :=
  unfold after; unfold_monad; cbn;
  repeat match goal with
    | |- context [JSONStorage._save_storage ?s] =>
        let H := fresh "Hs" in
        pose proof (save_storage_keeps_dictionary s) as H;
        destruct (JSONStorage._save_storage s) as [? [[] | ?]]; cbn in *
    end.

Lemma storage_after_set (st : state) (k : string) (v : value) :
  storage (after (JSONStorage.set k v) st) = <[k := v]> (storage st).
Proof. unfold JSONStorage.set. after_save; done. Qed.

Lemma storage_after_setex (st : state) (k : string) (v : value) (now ttl : Z) :
  storage (after (JSONStorage.setex now k ttl v) st)
  = <[k := wrap v (now + ttl)]> (storage st).
Proof. unfold JSONStorage.setex. after_save; done. Qed.

(** [get] on an object that is not a dictionary with an expiry. *)
Lemma get_plain (st : state) (k : string) (v : value) (now : Z) :
  storage st !! k = Some v -> is_wrapper v = false ->
  JSONStorage.get now k st = (st, Ok v).
Proof.
  intros Hk Hw. unfold JSONStorage.get. run_with Hk.
  destruct v; try reflexivity. cbn in Hw. by rewrite Hw.
Qed.

Lemma get_absent (st : state) (k : string) (now : Z) :
  storage st !! k = None -> JSONStorage.get now k st = (st, Ok VNone).
Proof. intros Hk. unfold JSONStorage.get. run_with Hk. reflexivity. Qed.

(** X5.  [set] then [get]: whatever the key held before (a value with a
    time to live included) and whatever the time, [get] returns the object
    just stored, provided that object is not a dictionary with a field
    [expires_at]; this holds even when the snapshot write of [set] raised. *)
Theorem set_then_get (st : state) (k : string) (v : value) (now : Z) :
  is_wrapper v = false ->
  snd (JSONStorage.get now k (after (JSONStorage.set k v) st)) = Ok v.
Proof.
  intros Hw. rewrite (get_plain _ k v); [ done | | done ].
  by rewrite storage_after_set, lookup_insert_eq.
Qed.

Lemma set_then_get_witness :
  snd (JSONStorage.get 1000 "k"
         (after (JSONStorage.set "k" (VList [VInt 1; VStr "a"]))
            (after (JSONStorage.setex 0 "k" 5 (VStr "old")) fresh)))
  = Ok (VList [VInt 1; VStr "a"]).
Proof. apply set_then_get. reflexivity. Defined.

(** X6.  [setex] then [get]: up to and including [now + ttl] the value is
    returned and nothing changes; later, [get] removes the key from the
    dictionary, and returns [None] when the snapshot can be written. *)
Theorem setex_then_get (st : state) (k : string) (v : value)
    (now ttl later : Z) :
  let st1 := after (JSONStorage.setex now k ttl v) st in
  (later <= now + ttl -> JSONStorage.get later k st1 = (st1, Ok v)) /\
  (now + ttl < later ->
   storage (after (JSONStorage.get later k) st1) = base.delete k (storage st) /\
   (is_Some (JSONStorage.encode (base.delete k (storage st))) ->
    snd (JSONStorage.get later k st1) = Ok VNone)).
Proof.
  intros st1.
  assert (Hk : storage st1 !! k = Some (wrap v (now + ttl))).
  { subst st1. by rewrite storage_after_setex, lookup_insert_eq. }
  assert (Hdel : base.delete k (storage st1) = base.delete k (storage st)).
  { subst st1. by rewrite storage_after_setex, delete_insert_eq. }
  split.
  - intros Hle. by rewrite (get_before_expiry st1 k _ (now + ttl) later Hk).
  - intros Hlt. split.
    + unfold after.
      rewrite (get_after_expiry st1 k _ (now + ttl) later Hk) by done.
      rewrite Hdel.
      match goal with
      | |- context [JSONStorage._save_storage ?s] =>
          pose proof (save_storage_keeps_dictionary s) as Hs;
          by destruct (JSONStorage._save_storage s) as [? ?]
      end.
    + intros [doc Hdoc]. rewrite <- Hdel in Hdoc.
      by rewrite (get_after_expiry_persisted st1 k _ (now + ttl) later Hk
                    eq_refl doc).
Qed.

Lemma setex_then_get_witness :
  let st1 := after (JSONStorage.setex 100 "k" 5 (VStr "v")) fresh in
  JSONStorage.get 105 "k" st1 = (st1, Ok (VStr "v")) /\
  snd (JSONStorage.get 106 "k" st1) = Ok VNone.
Proof.
  intros st1. subst st1.
  destruct (setex_then_get fresh "k" (VStr "v") 100 5 105) as [Hin _].
  destruct (setex_then_get fresh "k" (VStr "v") 100 5 106) as [_ Hout].
  cbv zeta in Hin, Hout. split; [ apply Hin; lia | ].
  destruct (Hout ltac:(lia)) as [_ Hnone]. apply Hnone.
  eexists. vm_compute. reflexivity.
Defined.

(** X7.  [delete]: afterwards the key is absent, so [exists] answers
    [False] and [get] returns [None]; on a key that was absent [delete]
    returns without touching the dictionary or the file. *)
Theorem delete_then_absent (st : state) (k : string) (now : Z) :
  let st1 := after (JSONStorage.delete k) st in
  storage st1 = base.delete k (storage st) /\
  JSONStorage.exists_ k st1 = (st1, Ok false) /\
  JSONStorage.get now k st1 = (st1, Ok VNone) /\
  (storage st !! k = None -> JSONStorage.delete k st = (st, Ok ())).
Proof.
  intros st1.
  assert (H1 : storage st1 = base.delete k (storage st)).
  { subst st1. unfold JSONStorage.delete, after. unfold_monad. cbn.
    destruct (storage st !! k) as [v | ] eqn:Hk; cbn.
    - match goal with
      | |- context [JSONStorage._save_storage ?s] =>
          pose proof (save_storage_keeps_dictionary s) as Hs;
          by destruct (JSONStorage._save_storage s) as [? [[] | ?]]
      end.
    - symmetry. by apply delete_id. }
  assert (Hk1 : storage st1 !! k = None) by (by rewrite H1, lookup_delete_eq).
  repeat apply conj.
  - exact H1.
  - unfold JSONStorage.exists_. run_with Hk1. reflexivity.
  - by apply get_absent.
  - intros Hk. unfold JSONStorage.delete. run_with Hk. reflexivity.
Qed.

Lemma delete_then_absent_witness :
  let st1 := after (JSONStorage.delete "k")
               (after (JSONStorage.set "k" (VInt 1)) fresh) in
  JSONStorage.exists_ "k" st1 = (st1, Ok false) /\
  JSONStorage.delete "k" fresh = (fresh, Ok ()).
Proof.
  intros st1. subst st1.
  destruct (delete_then_absent (after (JSONStorage.set "k" (VInt 1)) fresh)
              "k" 0) as (_ & He & _ & _).
  destruct (delete_then_absent fresh "k" 0) as (_ & _ & _ & Hd).
  cbv zeta in He. split; [ exact He | by apply Hd ].
Defined.

(** ** Sets *)

Lemma storage_after_sadd (st : state) (k : string) (x : scalar)
    (s : gset scalar) :
  storage st !! k = Some (VSet s) \/ (storage st !! k = None /\ s = ∅) ->
  storage (after (JSONStorage.sadd k x) st)
  = <[k := VSet ({[x]} ∪ s)]> (storage st).
Proof.
  intros [Hk | [Hk ->]]; unfold JSONStorage.sadd, after; run_with Hk.
  - elim_save; done.
  - rewrite lookup_insert_eq. cbn.
    elim_save; rewrite Hs; by rewrite insert_insert_eq.
Qed.

(** X8.  [sadd] on a key that is absent or holds a set: afterwards the key
    holds the old members and the new one, [sismember] finds the new member
    and answers for every other value as before, [scard] has grown by one
    exactly when the member was new, and adding the same member again
    changes nothing in the dictionary. *)
Theorem sadd_then_member (st : state) (k : string) (x : scalar)
    (s : gset scalar) :
  storage st !! k = Some (VSet s) \/ (storage st !! k = None /\ s = ∅) ->
  let st1 := after (JSONStorage.sadd k x) st in
  storage st1 !! k = Some (VSet ({[x]} ∪ s)) /\
  JSONStorage.sismember k x st1 = (st1, Ok true) /\
  (forall y, y <> x ->
     JSONStorage.sismember k y st1 = (st1, Ok (bool_decide (y ∈ s)))) /\
  JSONStorage.scard k st1
  = (st1, Ok (Z.of_nat (size s) + (if decide (x ∈ s) then 0 else 1))) /\
  storage (after (JSONStorage.sadd k x) st1) = storage st1.
Proof.
  intros Hk st1.
  assert (Hk1 : storage st1 !! k = Some (VSet ({[x]} ∪ s))).
  { subst st1. by rewrite (storage_after_sadd st k x s Hk), lookup_insert_eq. }
  split; [ exact Hk1 | ]. split; [ | split; [ | split ] ].
  - unfold JSONStorage.sismember. run_with Hk1.
    rewrite bool_decide_eq_true_2; [ done | set_solver ].
  - intros y Hy. unfold JSONStorage.sismember. run_with Hk1.
    do 2 f_equal. apply bool_decide_ext. set_solver.
  - unfold JSONStorage.scard. run_with Hk1. do 2 f_equal.
    destruct (decide (x ∈ s)) as [Hin | Hnin].
    + replace ({[x]} ∪ s) with s by set_solver. lia.
    + rewrite size_union by set_solver. rewrite size_singleton. lia.
  - rewrite (storage_after_sadd st1 k x ({[x]} ∪ s)) by (by left).
    apply insert_id. rewrite Hk1. do 2 f_equal. set_solver.
Qed.

Lemma sadd_then_member_witness :
  let st1 := after (JSONStorage.sadd "k" (SInt 1))
               (after (JSONStorage.sadd "k" (SInt 1)) fresh) in
  JSONStorage.sismember "k" (SInt 1) st1 = (st1, Ok true) /\
  JSONStorage.scard "k" st1 = (st1, Ok 1).
Proof.
  intros st1. subst st1.
  assert (H0 : storage (after (JSONStorage.sadd "k" (SInt 1)) fresh) !! "k"
               = Some (VSet {[ SInt 1 ]})) by (vm_compute; reflexivity).
  destruct (sadd_then_member _ "k" (SInt 1) {[ SInt 1 ]} (or_introl H0))
    as (_ & Hm & _ & Hc & _).
  cbv zeta in Hm, Hc. split; [ exact Hm | ].
  rewrite Hc. vm_compute. reflexivity.
Defined.

(** X9.  [srem] on a key holding a set: a member is removed and no longer
    found; for a value that is not a member, [srem] returns without touching
    the dictionary or the file. *)
Theorem srem_then_not_member (st : state) (k : string) (x : scalar)
    (s : gset scalar) :
  storage st !! k = Some (VSet s) ->
  let st1 := after (JSONStorage.srem k x) st in
  storage st1 !! k = Some (VSet (s ∖ {[x]})) /\
  JSONStorage.sismember k x st1 = (st1, Ok false) /\
  (x ∉ s -> JSONStorage.srem k x st = (st, Ok ())).
Proof.
  intros Hk st1.
  assert (Hk1 : storage st1 !! k = Some (VSet (s ∖ {[x]}))).
  { subst st1. unfold JSONStorage.srem, after. run_with Hk.
    destruct (decide (x ∈ s)) as [Hin | Hnin].
    - rewrite bool_decide_eq_true_2 by done. cbn.
      elim_save; rewrite Hs; by rewrite lookup_insert_eq.
    - rewrite bool_decide_eq_false_2 by done. cbn.
      rewrite Hk. do 2 f_equal. set_solver. }
  split; [ exact Hk1 | split ].
  - unfold JSONStorage.sismember. run_with Hk1.
    rewrite bool_decide_eq_false_2; [ done | set_solver ].
  - intros Hnin. unfold JSONStorage.srem. run_with Hk.
    by rewrite bool_decide_eq_false_2.
Qed.

Lemma srem_then_not_member_witness :
  let st := after (JSONStorage.sadd "k" (SStr "b"))
              (after (JSONStorage.sadd "k" (SStr "a")) fresh) in
  let st1 := after (JSONStorage.srem "k" (SStr "a")) st in
  storage st1 !! "k" = Some (VSet ({[ SStr "a"; SStr "b" ]} ∖ {[ SStr "a" ]})) /\
  JSONStorage.sismember "k" (SStr "a") st1 = (st1, Ok false).
Proof.
  intros st st1.
  assert (Hk : storage st !! "k" = Some (VSet {[ SStr "a"; SStr "b" ]})).
  { subst st.
    rewrite (storage_after_sadd _ "k" (SStr "b") {[ SStr "a" ]})
      by (left; vm_compute; reflexivity).
    rewrite lookup_insert_eq. by do 2 f_equal. }
  destruct (srem_then_not_member st "k" (SStr "a") _ Hk) as (H1 & H2 & _).
  by split.
Defined.

(** X10.  [sdiff] and [sunion] change nothing; on two keys holding sets
    they return the difference and the union, and as soon as one of the two
    keys does not hold a set they return the empty set, also when the other
    key holds a set. *)
Theorem set_algebra (st : state) (k1 k2 : string) :
  (forall s1 s2,
     storage st !! k1 = Some (VSet s1) ->
     storage st !! k2 = Some (VSet s2) ->
     JSONStorage.sdiff k1 k2 st = (st, Ok (s1 ∖ s2)) /\
     JSONStorage.sunion k1 k2 st = (st, Ok (s1 ∪ s2))) /\
  ((forall s, storage st !! k1 <> Some (VSet s)) \/
   (forall s, storage st !! k2 <> Some (VSet s)) ->
   JSONStorage.sdiff k1 k2 st = (st, Ok ∅) /\
   JSONStorage.sunion k1 k2 st = (st, Ok ∅)).
Proof.
  unfold JSONStorage.sdiff, JSONStorage.sunion. unfold_monad. cbn. split.
  - intros s1 s2 -> ->. done.
  - intros [H | H];
      destruct (storage st !! k1) as [ [ | | | | | s1 | ] | ];
      destruct (storage st !! k2) as [ [ | | | | | s2 | ] | ];
      try done; by (exfalso; eapply H).
Qed.

Lemma set_algebra_witness :
  let st := after (JSONStorage.sadd "b" (SInt 2))
              (after (JSONStorage.sadd "a" (SInt 1)) fresh) in
  JSONStorage.sunion "a" "b" st = (st, Ok ({[ SInt 1 ]} ∪ {[ SInt 2 ]})) /\
  JSONStorage.sunion "a" "c" st = (st, Ok ∅).
Proof.
  intros st.
  assert (Ha : storage st !! "a" = Some (VSet {[ SInt 1 ]}))
    by (vm_compute; reflexivity).
  assert (Hb : storage st !! "b" = Some (VSet {[ SInt 2 ]}))
    by (vm_compute; reflexivity).
  assert (Hc : storage st !! "c" = None) by (vm_compute; reflexivity).
  destruct (set_algebra st "a" "b") as [Hboth _].
  destruct (set_algebra st "a" "c") as [_ Hone].
  split.
  - by destruct (Hboth _ _ Ha Hb).
  - apply Hone. right. intros s. by rewrite Hc.
Defined.

(** ** Hashes *)

Lemma dict_get_set_eq {A} (d : list (string * A)) (k : string) (v : A) :
  dict_get (dict_set d k v) k = Some v.
Proof.
  induction d as [ | [k' v'] d IH ]; cbn.
  - by rewrite String.eqb_refl.
  - destruct (String.eqb_spec k' k) as [-> | Hne]; cbn.
    + by rewrite String.eqb_refl.
    + destruct (String.eqb_spec k' k); done.
Qed.

Lemma dict_get_set_ne {A} (d : list (string * A)) (k k' : string) (v : A) :
  k' <> k -> dict_get (dict_set d k v) k' = dict_get d k'.
Proof.
  intros Hne. induction d as [ | [k0 v0] d IH ]; cbn.
  - destruct (String.eqb_spec k k'); congruence.
  - destruct (String.eqb_spec k0 k) as [-> | Hk0]; cbn.
    + destruct (String.eqb_spec k k'); congruence.
    + destruct (String.eqb_spec k0 k'); done.
Qed.

Lemma length_dict_set {A} (d : list (string * A)) (k : string) (v : A) :
  length (dict_set d k v)
  = if dict_mem k d then length d else S (length d).
Proof.
  unfold dict_mem. induction d as [ | [k' v'] d IH ]; cbn; [ done | ].
  destruct (String.eqb_spec k' k); cbn; [ done | ].
  rewrite IH. by destruct (dict_get d k).
Qed.

Lemma dict_get_del_ne {A} (d : list (string * A)) (k k' : string) :
  k' <> k -> dict_get (dict_del d k) k' = dict_get d k'.
Proof.
  intros Hne. induction d as [ | [k0 v0] d IH ]; cbn; [ done | ].
  destruct (String.eqb_spec k0 k) as [-> | Hk0]; cbn.
  - destruct (String.eqb_spec k k'); congruence.
  - destruct (String.eqb_spec k0 k'); done.
Qed.

Lemma dict_get_None {A} (d : list (string * A)) (k : string) :
  k ∉ d.*1 -> dict_get d k = None.
Proof.
  induction d as [ | [k0 v0] d IH ]; cbn; [ done | ].
  intros Hnin. destruct (String.eqb_spec k0 k) as [-> | Hk0].
  - exfalso. apply Hnin. left.
  - apply IH. intros Hin. apply Hnin. by right.
Qed.

Lemma dict_get_del_eq {A} (d : list (string * A)) (k : string) :
  NoDup d.*1 -> dict_get (dict_del d k) k = None.
Proof.
  induction d as [ | [k0 v0] d IH ]; cbn; [ done | ].
  intros [Hnin Hd]%NoDup_cons.
  destruct (String.eqb_spec k0 k) as [-> | Hk0]; cbn.
  - by apply dict_get_None.
  - destruct (String.eqb_spec k0 k); [ done | by apply IH ].
Qed.

Lemma length_dict_del {A} (d : list (string * A)) (k : string) :
  dict_mem k d = true -> length d = S (length (dict_del d k)).
Proof.
  unfold dict_mem. induction d as [ | [k' v'] d IH ]; cbn; [ done | ].
  destruct (String.eqb_spec k' k); cbn; [ done | ].
  intros H. by rewrite IH.
Qed.

Lemma hget_dict (st : state) (k f : string) (d : list (string * value)) :
  storage st !! k = Some (VDict d) ->
  JSONStorage.hget k f st = (st, Ok (default VNone (dict_get d f))).
Proof.
  intros Hk. unfold JSONStorage.hget. run_with Hk.
  unfold dict_mem. by destruct (dict_get d f).
Qed.

Lemma storage_after_hset (st : state) (k f : string) (v : value)
    (d : list (string * value)) :
  storage st !! k = Some (VDict d) \/ (storage st !! k = None /\ d = []) ->
  storage (after (JSONStorage.hset k f v) st)
  = <[k := VDict (dict_set d f v)]> (storage st).
Proof.
  intros [Hk | [Hk ->]]; unfold JSONStorage.hset, after; run_with Hk.
  - elim_save; done.
  - rewrite lookup_insert_eq. cbn.
    elim_save; rewrite Hs; by rewrite insert_insert_eq.
Qed.

(** X11.  [hset] on a key that is absent or holds a hash: afterwards
    [hget] returns the stored object for that field and what it returned
    before for every other field, and [hlen] has grown by one exactly when
    the field was new. *)
Theorem hset_then_hget (st : state) (k f : string) (v : value)
    (d : list (string * value)) :
  storage st !! k = Some (VDict d) \/ (storage st !! k = None /\ d = []) ->
  let st1 := after (JSONStorage.hset k f v) st in
  JSONStorage.hget k f st1 = (st1, Ok v) /\
  (forall f', f' <> f ->
     snd (JSONStorage.hget k f' st1) = snd (JSONStorage.hget k f' st)) /\
  JSONStorage.hlen k st1
  = (st1, Ok (Z.of_nat (length d) + (if dict_mem f d then 0 else 1))).
Proof.
  intros Hk st1.
  assert (Hk1 : storage st1 !! k = Some (VDict (dict_set d f v))).
  { subst st1. by rewrite (storage_after_hset st k f v d Hk), lookup_insert_eq. }
  split; [ | split ].
  - rewrite (hget_dict st1 k f _ Hk1). by rewrite dict_get_set_eq.
  - intros f' Hf'. rewrite (hget_dict st1 k f' _ Hk1).
    rewrite dict_get_set_ne by done.
    destruct Hk as [Hk | [Hk ->]].
    + by rewrite (hget_dict st k f' d Hk).
    + unfold JSONStorage.hget. run_with Hk. reflexivity.
  - unfold JSONStorage.hlen. run_with Hk1. rewrite length_dict_set.
    do 2 f_equal. destruct (dict_mem f d); lia.
Qed.

Lemma hset_then_hget_witness :
  let st1 := after (JSONStorage.hset "h" "name" (VStr "ann")) fresh in
  JSONStorage.hget "h" "name" st1 = (st1, Ok (VStr "ann")) /\
  JSONStorage.hlen "h" st1 = (st1, Ok 1).
Proof.
  intros st1. subst st1.
  destruct (hset_then_hget fresh "h" "name" (VStr "ann") []
              (or_intror (conj eq_refl eq_refl))) as (Hg & _ & Hl).
  cbv zeta in Hg, Hl. split; [ exact Hg | exact Hl ].
Defined.

(** X12.  [hdel] on a key holding a hash: for a field the hash does not
    have it returns without touching the dictionary or the file; for a
    field it has, the field is removed, [hlen] drops by one, every other
    field reads as before, and (field names being distinct, as in every
    Python dictionary) [hget] on the deleted field returns [None]. *)
Theorem hdel_then_hget (st : state) (k f : string)
    (d : list (string * value)) :
  storage st !! k = Some (VDict d) ->
  let st1 := after (JSONStorage.hdel k f) st in
  (dict_mem f d = false -> JSONStorage.hdel k f st = (st, Ok ())) /\
  (dict_mem f d = true ->
     storage st1 !! k = Some (VDict (dict_del d f)) /\
     JSONStorage.hlen k st1 = (st1, Ok (Z.of_nat (length d) - 1)) /\
     (forall f', f' <> f ->
        snd (JSONStorage.hget k f' st1) = snd (JSONStorage.hget k f' st)) /\
     (NoDup d.*1 -> JSONStorage.hget k f st1 = (st1, Ok VNone))).
Proof.
  intros Hk st1. split.
  - intros Hm. unfold JSONStorage.hdel. run_with Hk. by rewrite Hm.
  - intros Hm.
    assert (Hk1 : storage st1 !! k = Some (VDict (dict_del d f))).
    { subst st1. unfold JSONStorage.hdel, after. run_with Hk.
      rewrite Hm. cbn. elim_save; rewrite Hs; by rewrite lookup_insert_eq. }
    split; [ exact Hk1 | ]. split; [ | split ].
    + unfold JSONStorage.hlen. run_with Hk1.
      rewrite (length_dict_del d f Hm). do 2 f_equal. lia.
    + intros f' Hf'. rewrite (hget_dict st1 k f' _ Hk1).
      rewrite (hget_dict st k f' d Hk). by rewrite dict_get_del_ne.
    + intros Hnd. rewrite (hget_dict st1 k f _ Hk1).
      by rewrite dict_get_del_eq.
Qed.

Lemma hdel_then_hget_witness :
  let st := after (JSONStorage.hset "h" "b" (VInt 2))
              (after (JSONStorage.hset "h" "a" (VInt 1)) fresh) in
  let st1 := after (JSONStorage.hdel "h" "a") st in
  JSONStorage.hget "h" "a" st1 = (st1, Ok VNone) /\
  JSONStorage.hlen "h" st1 = (st1, Ok 1).
Proof.
  intros st st1. subst st1.
  assert (Hk : storage st !! "h" = Some (VDict [("a", VInt 1); ("b", VInt 2)]))
    by (vm_compute; reflexivity).
  destruct (hdel_then_hget st "h" "a" _ Hk) as [_ Hdel].
  destruct (Hdel eq_refl) as (_ & Hl & _ & Hg).
  cbv zeta in Hl, Hg. split; [ | exact Hl ].
  apply Hg. repeat constructor; set_solver.
Defined.

Lemma dict_set_set {A} (d : list (string * A)) (k : string) (v w : A) :
  dict_set (dict_set d k v) k w = dict_set d k w.
Proof.
  induction d as [ | [k' v'] d IH ]; cbn.
  - by rewrite String.eqb_refl.
  - destruct (String.eqb_spec k' k) as [-> | Hne]; cbn.
    + by rewrite String.eqb_refl.
    + destruct (String.eqb_spec k' k); [ done | by rewrite IH ].
Qed.

(** The run of [hincrby] on a hash, up to the snapshot write. *)
Lemma hincrby_run (st : state) (k f : string) (n z : Z)
    (d : list (string * value)) :
  storage st !! k = Some (VDict d) \/ (storage st !! k = None /\ d = []) ->
  dict_get d f = Some (VInt z) \/ (dict_get d f = None /\ z = 0) ->
  JSONStorage.hincrby k f n st =
    let st' := {| storage := <[k := VDict (dict_set d f (VInt (z + n)))]>
                               (storage st);
                  file := file st |} in
    match JSONStorage._save_storage st' with
    | (st'', Ok _) => (st'', Ok (VInt (z + n)))
    | (st'', Raise e) => (st'', Raise e)
    end.
Proof.
  intros Hk Hf. unfold JSONStorage.hincrby.
  destruct Hk as [Hk | [Hk ->]]; run_with Hk; unfold dict_mem.
  - destruct Hf as [Hf | [Hf ->]]; rewrite Hf; cbn; rewrite ?Hk; cbn.
    + rewrite Hf. cbn.
      elim_save; [ | done ]. rewrite Hs, lookup_insert_eq. cbn.
      by rewrite dict_get_set_eq.
    + rewrite lookup_insert_eq. cbn. rewrite dict_get_set_eq. cbn.
      rewrite !insert_insert_eq, dict_set_set.
      elim_save; [ | done ]. rewrite Hs, lookup_insert_eq. cbn.
      by rewrite dict_get_set_eq.
  - destruct Hf as [Hf | [_ ->]]; [ discriminate | ].
    rewrite lookup_insert_eq. cbn. rewrite lookup_insert_eq. cbn.
    rewrite String.eqb_refl. cbn. rewrite !insert_insert_eq.
    elim_save; [ | done ]. rewrite Hs, lookup_insert_eq. cbn.
    by rewrite String.eqb_refl.
Qed.

(** X13.  [hincrby] on a key that is absent or holds a hash.  A field
    that is missing counts as 0 and a field holding an int [z] ends up
    holding [z + n]; that sum is what [hincrby] returns when the snapshot can
    be written and what [hget] returns afterwards.  A field holding anything
    but an int makes [hincrby] raise [TypeError] with nothing changed. *)
Theorem hincrby_accumulates (st : state) (k f : string) (n : Z)
    (d : list (string * value)) :
  storage st !! k = Some (VDict d) \/ (storage st !! k = None /\ d = []) ->
  let st1 := after (JSONStorage.hincrby k f n) st in
  (forall z,
     dict_get d f = Some (VInt z) \/ (dict_get d f = None /\ z = 0) ->
     storage st1 = <[k := VDict (dict_set d f (VInt (z + n)))]> (storage st) /\
     (is_Some (JSONStorage.encode (storage st1)) ->
      snd (JSONStorage.hincrby k f n st) = Ok (VInt (z + n))) /\
     JSONStorage.hget k f st1 = (st1, Ok (VInt (z + n)))) /\
  (forall w,
     dict_get d f = Some w -> kind_of w <> KInt ->
     JSONStorage.hincrby k f n st = (st, Raise TypeError)).
Proof.
  intros Hk st1. split.
  - intros z Hf.
    assert (H1 : storage st1 =
                 <[k := VDict (dict_set d f (VInt (z + n)))]> (storage st)).
    { subst st1. unfold after. rewrite (hincrby_run st k f n z d Hk Hf).
      cbv zeta. elim_save; exact Hs. }
    split; [ exact H1 | split ].
    + intros [doc Hdoc]. rewrite (hincrby_run st k f n z d Hk Hf). cbv zeta.
      rewrite H1 in Hdoc. unfold JSONStorage._save_storage. cbn.
      by rewrite Hdoc.
    + rewrite (hget_dict st1 k f (dict_set d f (VInt (z + n)))).
      * by rewrite dict_get_set_eq.
      * by rewrite H1, lookup_insert_eq.
  - intros w Hw Hkind. destruct Hk as [Hk | [_ ->]]; [ | discriminate ].
    unfold JSONStorage.hincrby. run_with Hk. unfold dict_mem. rewrite Hw. cbn.
    rewrite Hk. cbn. rewrite Hw. cbn. by destruct w.
Qed.

Lemma hincrby_accumulates_witness :
  let st1 := after (JSONStorage.hincrby "h" "hits" 3)
               (after (JSONStorage.hincrby "h" "hits" 2) fresh) in
  JSONStorage.hget "h" "hits" st1 = (st1, Ok (VInt 5)).
Proof.
  intros st1. subst st1.
  assert (Hk : storage (after (JSONStorage.hincrby "h" "hits" 2) fresh) !! "h"
               = Some (VDict [("hits", VInt 2)])) by (vm_compute; reflexivity).
  destruct (hincrby_accumulates _ "h" "hits" 3 _ (or_introl Hk)) as [Hint _].
  destruct (Hint 2 (or_introl eq_refl)) as (_ & _ & Hg).
  exact Hg.
Defined.

(** ** Counters and strings *)

(** The run of [incrby] on an int, up to the snapshot write. *)
Lemma incrby_run (st : state) (k : string) (n z : Z) :
  storage st !! k = Some (VInt z) \/ (storage st !! k = None /\ z = 0) ->
  JSONStorage.incrby k n st =
    let st' := {| storage := <[k := VInt (z + n)]> (storage st);
                  file := file st |} in
    match JSONStorage._save_storage st' with
    | (st'', Ok _) => (st'', Ok (VInt (z + n)))
    | (st'', Raise e) => (st'', Raise e)
    end.
Proof.
  intros [Hk | [Hk ->]]; unfold JSONStorage.incrby; run_with Hk.
  - elim_save; [ | done ]. by rewrite Hs, lookup_insert_eq.
  - rewrite lookup_insert_eq. cbn. rewrite insert_insert_eq.
    elim_save; [ | done ]. by rewrite Hs, lookup_insert_eq.
Qed.

Lemma storage_after_incrby (st : state) (k : string) (n z : Z) :
  storage st !! k = Some (VInt z) \/ (storage st !! k = None /\ z = 0) ->
  storage (after (JSONStorage.incrby k n) st)
  = <[k := VInt (z + n)]> (storage st).
Proof.
  intros Hk. unfold after. rewrite (incrby_run st k n z Hk). cbv zeta.
  elim_save; exact Hs.
Qed.

(** X14.  [incrby] on a key that is absent (counted as 0) or holds an int
    [z]: the key ends up holding [z + n], which is what [incrby] returns when
    the snapshot can be written and what [get] returns afterwards; a
    following [decrby] by the same amount puts [z] back. *)
Theorem incrby_then_decrby (st : state) (k : string) (n z now : Z) :
  storage st !! k = Some (VInt z) \/ (storage st !! k = None /\ z = 0) ->
  let st1 := after (JSONStorage.incrby k n) st in
  storage st1 = <[k := VInt (z + n)]> (storage st) /\
  (is_Some (JSONStorage.encode (storage st1)) ->
   snd (JSONStorage.incrby k n st) = Ok (VInt (z + n))) /\
  JSONStorage.get now k st1 = (st1, Ok (VInt (z + n))) /\
  storage (after (JSONStorage.decrby k n) st1) = <[k := VInt z]> (storage st).
Proof.
  intros Hk st1.
  assert (H1 : storage st1 = <[k := VInt (z + n)]> (storage st))
    by apply (storage_after_incrby st k n z Hk).
  assert (Hk1 : storage st1 !! k = Some (VInt (z + n)))
    by (by rewrite H1, lookup_insert_eq).
  split; [ exact H1 | ]. split; [ | split ].
  - intros [doc Hdoc]. rewrite (incrby_run st k n z Hk). cbv zeta.
    rewrite H1 in Hdoc. unfold JSONStorage._save_storage. cbn.
    by rewrite Hdoc.
  - by apply get_plain.
  - unfold JSONStorage.decrby.
    rewrite (storage_after_incrby st1 k (- n) (z + n) (or_introl Hk1)).
    rewrite H1, insert_insert_eq. do 2 f_equal. lia.
Qed.

Lemma incrby_then_decrby_witness :
  let st1 := after (JSONStorage.incrby "n" 5) fresh in
  JSONStorage.get 0 "n" st1 = (st1, Ok (VInt 5)) /\
  storage (after (JSONStorage.decrby "n" 5) st1) = {[ "n" := VInt 0 ]}.
Proof.
  intros st1. subst st1.
  destruct (incrby_then_decrby fresh "n" 5 0 0
              (or_intror (conj eq_refl eq_refl))) as (_ & _ & Hg & Hd).
  cbv zeta in Hg, Hd. split; [ exact Hg | ]. rewrite Hd. reflexivity.
Defined.

Lemma string_append_assoc (a b c : string) :
  ((a ++ b) ++ c = a ++ (b ++ c))%string.
Proof.
  induction a as [ | x a IH ]; [ reflexivity | ].
  change (String x ((a ++ b) ++ c) = String x (a ++ (b ++ c)))%string.
  by rewrite IH.
Qed.

Lemma storage_after_append_str (st : state) (k : string) (s a : string) :
  storage st !! k = Some (VStr s) ->
  storage (after (JSONStorage.append k (VStr a)) st)
  = <[k := VStr (s ++ a)]> (storage st).
Proof.
  intros Hk. unfold JSONStorage.append, after. run_with Hk. elim_save; done.
Qed.

Lemma storage_after_append_absent (st : state) (k : string) (w : value) :
  storage st !! k = None ->
  storage (after (JSONStorage.append k w) st) = <[k := w]> (storage st).
Proof.
  intros Hk. unfold JSONStorage.append, after. run_with Hk. elim_save; done.
Qed.

(** X15.  [append].  On an absent key the given object is stored as it
    is, whatever its type.  On a key holding a string, a string is
    concatenated to it, so that two appends amount to one append of the
    concatenation, and anything but a string makes [append] raise
    [TypeError] with nothing changed. *)
Theorem append_concatenates (st : state) (k : string) :
  (forall w,
     storage st !! k = None ->
     storage (after (JSONStorage.append k w) st) = <[k := w]> (storage st)) /\
  (forall s a b,
     storage st !! k = Some (VStr s) ->
     let st1 := after (JSONStorage.append k (VStr a)) st in
     storage st1 = <[k := VStr (s ++ a)]> (storage st) /\
     storage (after (JSONStorage.append k (VStr b)) st1)
     = storage (after (JSONStorage.append k (VStr (a ++ b))) st)) /\
  (forall s w,
     storage st !! k = Some (VStr s) -> kind_of w <> KStr ->
     JSONStorage.append k w st = (st, Raise TypeError)).
Proof.
  split; [ | split ].
  - intros w Hk. by apply storage_after_append_absent.
  - intros s a b Hk st1.
    assert (H1 : storage st1 = <[k := VStr (s ++ a)]> (storage st))
      by (by apply storage_after_append_str).
    split; [ exact H1 | ].
    rewrite (storage_after_append_str st1 k (s ++ a) b)
      by (by rewrite H1, lookup_insert_eq).
    rewrite (storage_after_append_str st k s (a ++ b) Hk).
    by rewrite H1, insert_insert_eq, string_append_assoc.
  - intros s w Hk Hw. unfold JSONStorage.append. run_with Hk. by destruct w.
Qed.

Lemma append_concatenates_witness :
  let st := after (JSONStorage.append "k" (VStr "ab")) fresh in
  storage st !! "k" = Some (VStr "ab") /\
  storage (after (JSONStorage.append "k" (VStr "cd")) st) !! "k"
  = Some (VStr "abcd") /\
  JSONStorage.append "k" (VInt 1) st = (st, Raise TypeError).
Proof.
  intros st.
  destruct (append_concatenates fresh "k") as (Habsent & _ & _).
  assert (Hk : storage st !! "k" = Some (VStr "ab")).
  { subst st. rewrite (Habsent (VStr "ab") eq_refl). apply lookup_insert_eq. }
  destruct (append_concatenates st "k") as (_ & Hstr & Hbad).
  destruct (Hstr "ab" "cd" "" Hk) as [Hcat _]. cbv zeta in Hcat.
  repeat apply conj.
  - exact Hk.
  - rewrite Hcat. apply lookup_insert_eq.
  - by apply (Hbad "ab").
Defined.

(** ** Lists *)

Lemma storage_after_lpush (st : state) (k : string) (v : value)
    (l : list value) :
  storage st !! k = Some (VList l) \/ (storage st !! k = None /\ l = []) ->
  storage (after (JSONStorage.lpush k v) st)
  = <[k := VList (v :: l)]> (storage st).
Proof.
  intros [Hk | [Hk ->]]; unfold JSONStorage.lpush, after; run_with Hk.
  - elim_save; done.
  - rewrite lookup_insert_eq. cbn.
    elim_save; rewrite Hs; by rewrite insert_insert_eq.
Qed.

Lemma storage_after_rpush (st : state) (k : string) (v : value)
    (l : list value) :
  storage st !! k = Some (VList l) \/ (storage st !! k = None /\ l = []) ->
  storage (after (JSONStorage.rpush k v) st)
  = <[k := VList (l ++ [v])]> (storage st).
Proof.
  intros [Hk | [Hk ->]]; unfold JSONStorage.rpush, after; run_with Hk.
  - elim_save; done.
  - rewrite lookup_insert_eq. cbn.
    elim_save; rewrite Hs; by rewrite insert_insert_eq.
Qed.

(** The run of the two pops on a list that is not empty. *)
Lemma lpop_run (st : state) (k : string) (x : value) (l : list value) :
  storage st !! k = Some (VList (x :: l)) ->
  JSONStorage.lpop k st =
    match JSONStorage._save_storage
            {| storage := <[k := VList l]> (storage st); file := file st |}
    with
    | (st', Ok _) => (st', Ok x)
    | (st', Raise e) => (st', Raise e)
    end.
Proof.
  intros Hk. unfold JSONStorage.lpop. run_with Hk. by elim_save.
Qed.

Lemma rpop_run (st : state) (k : string) (x : value) (l : list value) :
  storage st !! k = Some (VList (l ++ [x])) ->
  JSONStorage.rpop k st =
    match JSONStorage._save_storage
            {| storage := <[k := VList l]> (storage st); file := file st |}
    with
    | (st', Ok _) => (st', Ok x)
    | (st', Raise e) => (st', Raise e)
    end.
Proof.
  intros Hk. unfold JSONStorage.rpop. run_with Hk.
  destruct (l ++ [x])%list as [ | y l' ] eqn:El; [ by destruct l | ].
  change (match l' with [] => [] | _ :: _ => y :: removelast l' end)
    with (removelast (y :: l')).
  change (match l' with [] => y | _ :: _ => List.last l' VNone end)
    with (List.last (y :: l') VNone).
  rewrite <- El, List.removelast_last, List.last_last. reflexivity.
Qed.

Lemma lindex_lookup (st : state) (k : string) (l : list value) (i : Z)
    (x : value) :
  storage st !! k = Some (VList l) ->
  0 <= i -> l !! Z.to_nat i = Some x ->
  JSONStorage.lindex k i st = (st, Ok x).
Proof.
  intros Hk Hi Hx. unfold JSONStorage.lindex. run_with Hk.
  unfold py_index. destruct (Z.ltb_spec i 0); [ lia | ].
  destruct (Z.ltb_spec i 0); [ lia | ]. by rewrite Hx.
Qed.

(** X16.  The two pops on a key holding a list.  On an empty list both
    return [None] without touching the dictionary or the file.  Otherwise
    [lpop] removes the first item, the one [lindex(key, 0)] shows, and
    [rpop] removes the last item, the one [lindex(key, -1)] shows; the
    removed item is returned when the snapshot can be written. *)
Theorem pops_take_the_ends (st : state) (k : string) (l : list value) :
  storage st !! k = Some (VList l) ->
  (l = [] ->
   JSONStorage.lpop k st = (st, Ok VNone) /\
   JSONStorage.rpop k st = (st, Ok VNone)) /\
  (forall x l',
     l = x :: l' ->
     let st1 := after (JSONStorage.lpop k) st in
     storage st1 = <[k := VList l']> (storage st) /\
     JSONStorage.lindex k 0 st = (st, Ok x) /\
     (is_Some (JSONStorage.encode (storage st1)) ->
      snd (JSONStorage.lpop k st) = Ok x)) /\
  (forall x l',
     l = (l' ++ [x])%list ->
     let st1 := after (JSONStorage.rpop k) st in
     storage st1 = <[k := VList l']> (storage st) /\
     JSONStorage.lindex k (-1) st = (st, Ok x) /\
     (is_Some (JSONStorage.encode (storage st1)) ->
      snd (JSONStorage.rpop k st) = Ok x)).
Proof.
  intros Hk. split; [ | split ].
  - intros ->. unfold JSONStorage.lpop, JSONStorage.rpop. by run_with Hk.
  - intros x l' -> st1.
    assert (H1 : storage st1 = <[k := VList l']> (storage st)).
    { subst st1. unfold after. rewrite (lpop_run st k x l' Hk).
      elim_save; exact Hs. }
    split; [ exact H1 | split ].
    + by apply (lindex_lookup st k (x :: l')).
    + intros [doc Hdoc]. rewrite (lpop_run st k x l' Hk).
      rewrite H1 in Hdoc. unfold JSONStorage._save_storage. cbn.
      by rewrite Hdoc.
  - intros x l' -> st1.
    assert (H1 : storage st1 = <[k := VList l']> (storage st)).
    { subst st1. unfold after. rewrite (rpop_run st k x l' Hk).
      elim_save; exact Hs. }
    split; [ exact H1 | split ].
    + unfold JSONStorage.lindex. run_with Hk. unfold py_index.
      rewrite length_app. cbn [length].
      destruct (Z.ltb_spec (-1) 0); [ | lia ].
      destruct (Z.ltb_spec (-1 + Z.of_nat (length l' + 1)) 0); [ lia | ].
      replace (Z.to_nat (-1 + Z.of_nat (length l' + 1))) with (length l')
        by lia.
      by rewrite list_lookup_middle.
    + intros [doc Hdoc]. rewrite (rpop_run st k x l' Hk).
      rewrite H1 in Hdoc. unfold JSONStorage._save_storage. cbn.
      by rewrite Hdoc.
Qed.

Lemma pops_take_the_ends_witness :
  let st := holding "k" (VList [VInt 1; VInt 2; VInt 3]) in
  JSONStorage.lindex "k" 0 st = (st, Ok (VInt 1)) /\
  JSONStorage.lindex "k" (-1) st = (st, Ok (VInt 3)) /\
  snd (JSONStorage.lpop "k" st) = Ok (VInt 1) /\
  snd (JSONStorage.rpop "k" st) = Ok (VInt 3).
Proof.
  intros st.
  destruct (pops_take_the_ends st "k" [VInt 1; VInt 2; VInt 3] eq_refl)
    as (_ & Hl & Hr).
  destruct (Hl (VInt 1) [VInt 2; VInt 3] eq_refl) as (_ & Hl0 & Hlp).
  destruct (Hr (VInt 3) [VInt 1; VInt 2] eq_refl) as (_ & Hr0 & Hrp).
  repeat apply conj; [ exact Hl0 | exact Hr0 | apply Hlp | apply Hrp ];
    eexists; vm_compute; reflexivity.
Defined.

(** X17.  The two pushes on a key that is absent or holds a list: [lpush]
    puts the object first and [rpush] puts it last, [llen] grows by one, and
    the matching pop takes the object off again and leaves the list as it
    was before the push. *)
Theorem push_then_pop (st : state) (k : string) (v : value)
    (l : list value) :
  storage st !! k = Some (VList l) \/ (storage st !! k = None /\ l = []) ->
  let sl := after (JSONStorage.lpush k v) st in
  let sr := after (JSONStorage.rpush k v) st in
  storage sl = <[k := VList (v :: l)]> (storage st) /\
  storage sr = <[k := VList (l ++ [v])]> (storage st) /\
  JSONStorage.llen k sl = (sl, Ok (Z.of_nat (length l) + 1)) /\
  JSONStorage.llen k sr = (sr, Ok (Z.of_nat (length l) + 1)) /\
  storage (after (JSONStorage.lpop k) sl) = <[k := VList l]> (storage st) /\
  storage (after (JSONStorage.rpop k) sr) = <[k := VList l]> (storage st).
Proof.
  intros Hk sl sr.
  assert (Hl : storage sl = <[k := VList (v :: l)]> (storage st))
    by apply (storage_after_lpush st k v l Hk).
  assert (Hr : storage sr = <[k := VList (l ++ [v])]> (storage st))
    by apply (storage_after_rpush st k v l Hk).
  assert (Hkl : storage sl !! k = Some (VList (v :: l)))
    by (by rewrite Hl, lookup_insert_eq).
  assert (Hkr : storage sr !! k = Some (VList (l ++ [v])))
    by (by rewrite Hr, lookup_insert_eq).
  repeat apply conj; try done.
  - unfold JSONStorage.llen. run_with Hkl. do 2 f_equal. lia.
  - unfold JSONStorage.llen. run_with Hkr. rewrite length_app. cbn.
    do 2 f_equal. lia.
  - unfold after. rewrite (lpop_run sl k v l Hkl).
    elim_save; rewrite Hs, Hl; by rewrite insert_insert_eq.
  - unfold after. rewrite (rpop_run sr k v l Hkr).
    elim_save; rewrite Hs, Hr; by rewrite insert_insert_eq.
Qed.

Lemma push_then_pop_witness :
  let sl := after (JSONStorage.lpush "k" (VStr "a")) fresh in
  JSONStorage.llen "k" sl = (sl, Ok 1) /\
  storage (after (JSONStorage.lpop "k") sl) = {[ "k" := VList [] ]}.
Proof.
  intros sl. subst sl.
  destruct (push_then_pop fresh "k" (VStr "a") []
              (or_intror (conj eq_refl eq_refl)))
    as (_ & _ & Hlen & _ & Hpop & _).
  cbv zeta in Hlen, Hpop. split; [ exact Hlen | ]. rewrite Hpop. reflexivity.
Defined.

(** X18.  [lrange] on a key holding a list.  With bounds that are not
    negative it returns the items at the positions [start] to [end]
    inclusive (fewer when the list is shorter); the whole list is
    [lrange(key, 0, llen - 1)]; and an end bound from [-len] to [-2] counts
    from the end of the list, like the position [end + len]. *)
Theorem lrange_positions (st : state) (k : string) (l : list value)
    (start end_ : Z) :
  storage st !! k = Some (VList l) ->
  (0 <= start -> 0 <= end_ ->
   JSONStorage.lrange k start end_ st
   = (st, Ok (take (Z.to_nat (end_ - start + 1)) (drop (Z.to_nat start) l)))) /\
  JSONStorage.lrange k 0 (Z.of_nat (length l) - 1) st = (st, Ok l) /\
  (- Z.of_nat (length l) <= end_ < -1 ->
   JSONStorage.lrange k start end_ st
   = JSONStorage.lrange k start (end_ + Z.of_nat (length l)) st).
Proof.
  intros Hk. unfold JSONStorage.lrange. run_with Hk. split; [ | split ].
  - intros Hs He. do 2 f_equal. apply list_eq. intros i.
    rewrite py_slice_inclusive by done.
    destruct (decide (start + Z.of_nat i <= end_)).
    + rewrite lookup_take_lt by lia. by rewrite lookup_drop.
    + rewrite lookup_take_ge by lia. done.
  - do 2 f_equal. unfold py_slice, slice_bound.
    replace (Z.of_nat (length l) - 1 + 1) with (Z.of_nat (length l)) by lia.
    cbn. destruct (Z.ltb_spec (Z.of_nat (length l)) 0); [ lia | ].
    rewrite Z.min_id, Z.min_l, Z.sub_0_r, Nat2Z.id by lia.
    by rewrite drop_0, firstn_all.
  - intros He. do 2 f_equal. unfold py_slice. f_equal. f_equal. f_equal.
    unfold slice_bound.
    destruct (Z.ltb_spec (end_ + 1) 0); [ | lia ].
    destruct (Z.ltb_spec (end_ + Z.of_nat (length l) + 1) 0); lia.
Qed.

Lemma lrange_positions_witness :
  let st := holding "k" (VList [VInt 1; VInt 2; VInt 3; VInt 4]) in
  JSONStorage.lrange "k" 1 2 st = (st, Ok [VInt 2; VInt 3]) /\
  JSONStorage.lrange "k" 0 (-2) st = (st, Ok [VInt 1; VInt 2; VInt 3]).
Proof.
  intros st.
  destruct (lrange_positions st "k" [VInt 1; VInt 2; VInt 3; VInt 4] 1 2
              eq_refl) as (Hpos & _ & _).
  destruct (lrange_positions st "k" [VInt 1; VInt 2; VInt 3; VInt 4] 0 (-2)
              eq_refl) as (_ & _ & Hneg).
  split.
  - rewrite Hpos by lia. reflexivity.
  - rewrite Hneg by (cbn; lia). reflexivity.
Defined.

(** X19.  [lindex] on a key holding a list of length [n]: a position from
    0 to [n - 1] gives the item there, a position from [-n] to [-1] gives
    the item at [index + n], and every other position gives [None]; nothing
    is ever raised or changed. *)
Theorem lindex_positions (st : state) (k : string) (l : list value) (i : Z) :
  storage st !! k = Some (VList l) ->
  let n := Z.of_nat (length l) in
  (0 <= i < n ->
   exists x, l !! Z.to_nat i = Some x /\
             JSONStorage.lindex k i st = (st, Ok x)) /\
  (- n <= i < 0 ->
   JSONStorage.lindex k i st = JSONStorage.lindex k (i + n) st) /\
  (n <= i \/ i < - n -> JSONStorage.lindex k i st = (st, Ok VNone)).
Proof.
  intros Hk n. split; [ | split ].
  - intros Hi. destruct (lookup_lt_is_Some_2 l (Z.to_nat i)) as [x Hx];
      [ lia | ].
    exists x. split; [ done | ].
    apply (lindex_lookup st k l); [ done | lia | done ].
  - intros Hi. unfold JSONStorage.lindex. run_with Hk. unfold py_index.
    fold n. destruct (Z.ltb_spec i 0); [ | lia ].
    do 2 (destruct (Z.ltb_spec (i + n) 0); [ lia | ]). reflexivity.
  - intros Hi. unfold JSONStorage.lindex. run_with Hk. unfold py_index.
    fold n. destruct (Z.ltb_spec i 0).
    + destruct (Z.ltb_spec (i + n) 0); [ done | lia ].
    + destruct (Z.ltb_spec i 0); [ lia | ].
      rewrite (proj2 (lookup_ge_None l (Z.to_nat i))) by lia. done.
Qed.

Lemma lindex_positions_witness :
  let st := holding "k" (VList [VStr "a"; VStr "b"; VStr "c"]) in
  JSONStorage.lindex "k" (-3) st = (st, Ok (VStr "a")) /\
  JSONStorage.lindex "k" 3 st = (st, Ok VNone) /\
  JSONStorage.lindex "k" (-4) st = (st, Ok VNone).
Proof.
  intros st.
  destruct (lindex_positions st "k" [VStr "a"; VStr "b"; VStr "c"] (-3)
              eq_refl) as (_ & Hneg & _).
  destruct (lindex_positions st "k" [VStr "a"; VStr "b"; VStr "c"] 3
              eq_refl) as (_ & _ & Hhigh).
  destruct (lindex_positions st "k" [VStr "a"; VStr "b"; VStr "c"] (-4)
              eq_refl) as (_ & _ & Hlow).
  cbv zeta in *. cbn in Hneg, Hhigh, Hlow. repeat apply conj.
  - rewrite Hneg by lia. reflexivity.
  - apply Hhigh. lia.
  - apply Hlow. lia.
Defined.

(** ** Renaming and expiry *)

(** X20.  [rename] of a present key: the object (an expiry wrapper
    included) moves to the new key, replacing what was there; the old key
    disappears unless it is the new key itself; every other key is left as
    it was. *)
Theorem rename_moves (st : state) (a b : string) (v : value) :
  storage st !! a = Some v ->
  let st1 := after (JSONStorage.rename a b) st in
  storage st1 !! b = Some v /\
  (a <> b -> storage st1 !! a = None) /\
  (a = b -> storage st1 = storage st) /\
  (forall c, c <> a -> c <> b -> storage st1 !! c = storage st !! c).
Proof.
  intros Ha st1.
  assert (H1 : storage st1 = <[b := v]> (base.delete a (storage st))).
  { subst st1. unfold JSONStorage.rename, after. run_with Ha.
    elim_save; exact Hs. }
  repeat apply conj.
  - by rewrite H1, lookup_insert_eq.
  - intros Hne. rewrite H1, lookup_insert_ne by done. apply lookup_delete_eq.
  - intros <-. rewrite H1, insert_delete_eq. by apply insert_id.
  - intros c Hca Hcb. rewrite H1, lookup_insert_ne by done.
    by rewrite lookup_delete_ne.
Qed.

Lemma rename_moves_witness :
  let st := after (JSONStorage.setex 0 "a" 10 (VStr "v")) fresh in
  let st1 := after (JSONStorage.rename "a" "b") st in
  storage st1 !! "b" = Some (wrap (VStr "v") 10) /\ storage st1 !! "a" = None.
Proof.
  intros st st1. subst st1.
  assert (Ha : storage st !! "a" = Some (wrap (VStr "v") 10))
    by (vm_compute; reflexivity).
  destruct (rename_moves st "a" "b" _ Ha) as (Hb & Hgone & _).
  split; [ exact Hb | by apply Hgone ].
Defined.

(** X21.  [expire] on a key holding an object that is not already a
    dictionary with a field [expires_at]: the object is wrapped with the
    timestamp [now + ttl], [get] keeps returning it up to and including
    that time, and a second [expire] replaces the timestamp instead of
    wrapping the wrapper. *)
Theorem expire_then_get (st : state) (k : string) (v : value)
    (now ttl later now2 ttl2 : Z) :
  storage st !! k = Some v ->
  is_wrapper v = false ->
  let st1 := after (JSONStorage.expire now k ttl) st in
  storage st1 !! k = Some (wrap v (now + ttl)) /\
  (later <= now + ttl -> JSONStorage.get later k st1 = (st1, Ok v)) /\
  storage (after (JSONStorage.expire now2 k ttl2) st1) !! k
  = Some (wrap v (now2 + ttl2)).
Proof.
  intros Hk Hw st1.
  assert (Hk1 : storage st1 !! k = Some (wrap v (now + ttl))).
  { subst st1. unfold JSONStorage.expire, after. run_with Hk.
    destruct v; cbn in *; rewrite ?Hw; cbn;
      elim_save; rewrite Hs; by rewrite lookup_insert_eq. }
  split; [ exact Hk1 | split ].
  - intros Hle.
    by rewrite (get_before_expiry st1 k _ (now + ttl) later Hk1 eq_refl).
  - unfold JSONStorage.expire, after. run_with Hk1.
    elim_save; rewrite Hs; by rewrite lookup_insert_eq.
Qed.

Lemma expire_then_get_witness :
  let st1 := after (JSONStorage.expire 100 "k" 60)
               (after (JSONStorage.rpush "k" (VStr "a")) fresh) in
  JSONStorage.get 160 "k" st1 = (st1, Ok (VList [VStr "a"])).
Proof.
  intros st1. subst st1.
  assert (Hk : storage (after (JSONStorage.rpush "k" (VStr "a")) fresh) !! "k"
               = Some (VList [VStr "a"])) by (vm_compute; reflexivity).
  destruct (expire_then_get _ "k" _ 100 60 160 0 0 Hk eq_refl)
    as (_ & Hg & _).
  apply Hg. lia.
Defined.

(** ** Keys that are absent *)

(** X22.  On a key that is absent every query returns its default ([None],
    0, [False], the empty list or set, the type name [none]), the two pops
    return [None], and [delete], [srem], [hdel] and [expire] return without
    doing anything; none of them raises, changes the dictionary or writes
    the file. *)
Theorem absent_key_defaults (st : state) (k f : string) (x : scalar)
    (now ttl i j : Z) :
  storage st !! k = None ->
  (JSONStorage.get now k st = (st, Ok VNone) /\
   JSONStorage.hget k f st = (st, Ok VNone) /\
   JSONStorage.lindex k i st = (st, Ok VNone) /\
   JSONStorage.zscore k x st = (st, Ok VNone) /\
   JSONStorage.lpop k st = (st, Ok VNone) /\
   JSONStorage.rpop k st = (st, Ok VNone)) /\
  (JSONStorage.llen k st = (st, Ok 0) /\
   JSONStorage.scard k st = (st, Ok 0) /\
   JSONStorage.hlen k st = (st, Ok 0)) /\
  (JSONStorage.exists_ k st = (st, Ok false) /\
   JSONStorage.sismember k x st = (st, Ok false) /\
   JSONStorage.type k st = (st, Ok "none")) /\
  (JSONStorage.smembers k st = (st, Ok (VSet ∅)) /\
   JSONStorage.lrange k i j st = (st, Ok []) /\
   JSONStorage.zrange k i j st = (st, Ok []) /\
   JSONStorage.hkeys k st = (st, Ok []) /\
   JSONStorage.hvals k st = (st, Ok [])) /\
  (JSONStorage.delete k st = (st, Ok ()) /\
   JSONStorage.srem k x st = (st, Ok ()) /\
   JSONStorage.hdel k f st = (st, Ok ()) /\
   JSONStorage.expire now k ttl st = (st, Ok ())).
Proof.
  intros Hk.
  unfold JSONStorage.get, JSONStorage.hget, JSONStorage.lindex,
    JSONStorage.zscore, JSONStorage.lpop, JSONStorage.rpop, JSONStorage.llen,
    JSONStorage.scard, JSONStorage.hlen, JSONStorage.exists_,
    JSONStorage.sismember, JSONStorage.type, JSONStorage.smembers,
    JSONStorage.lrange, JSONStorage.zrange, JSONStorage.hkeys,
    JSONStorage.hvals, JSONStorage.delete, JSONStorage.srem,
    JSONStorage.hdel, JSONStorage.expire.
  run_with Hk. repeat apply conj; reflexivity.
Qed.

Lemma absent_key_defaults_witness :
  JSONStorage.get 0 "k" fresh = (fresh, Ok VNone) /\
  JSONStorage.llen "k" fresh = (fresh, Ok 0) /\
  JSONStorage.delete "k" fresh = (fresh, Ok ()).
Proof.
  destruct (absent_key_defaults fresh "k" "f" (SInt 0) 0 0 0 0 eq_refl)
    as ((Hg & _) & (Hl & _) & _ & _ & (Hd & _)).
  by repeat apply conj.
Defined.

(** ** A set below the top level *)

(** X23.  [expire] on a key holding a set raises [TypeError]: the set is
    wrapped in memory, the encoder refuses the wrapped set, and the file is
    left cut short.  From then on every command that writes the snapshot
    raises as well, for instance [set] on any other key, and the engine
    cannot be reopened from its file. *)
Theorem expire_on_set_breaks_saving (st : state) (k : string)
    (s : gset scalar) (now ttl : Z) :
  storage st !! k = Some (VSet s) ->
  let st1 := {| storage := <[k := wrap (VSet s) (now + ttl)]> (storage st);
                file := Garbled |} in
  JSONStorage.expire now k ttl st = (st1, Raise TypeError) /\
  (forall k2 v, k2 <> k -> snd (JSONStorage.set k2 v st1) = Raise TypeError) /\
  JSONStorage.__init__ (file st1) = Raise JSONDecodeError.
Proof.
  intros Hk st1. split; [ | split ].
  - unfold JSONStorage.expire. run_with Hk.
    unfold JSONStorage._save_storage. cbn.
    rewrite (encode_wrapped_set _ k s (now + ttl)); [ done | ].
    apply lookup_insert_eq.
  - intros k2 v Hne. unfold JSONStorage.set. unfold_monad. cbn.
    unfold JSONStorage._save_storage. cbn.
    rewrite (encode_wrapped_set _ k s (now + ttl)); [ done | ].
    rewrite lookup_insert_ne by done. apply lookup_insert_eq.
  - reflexivity.
Qed.

Lemma expire_on_set_breaks_saving_witness :
  let st := after (JSONStorage.sadd "s" (SInt 1)) fresh in
  snd (JSONStorage.expire 0 "s" 10 st) = Raise TypeError /\
  file (after (JSONStorage.expire 0 "s" 10) st) = Garbled.
Proof.
  intros st.
  assert (Hk : storage st !! "s" = Some (VSet {[ SInt 1 ]}))
    by (vm_compute; reflexivity).
  destruct (expire_on_set_breaks_saving st "s" _ 0 10 Hk) as (He & _).
  unfold after. rewrite He. by split.
Defined.

(** ** Scored lists *)

(** [<] on two items of a scored list with str members. *)
Lemma py_lt_scored (p q : Z * string) :
  py_lt (scored p) (scored q)
  = Ok (if fst p =? fst q
        then if String.eqb (snd p) (snd q) then false
             else String.ltb (snd p) (snd q)
        else fst p <? fst q).
Proof.
  destruct p as [s1 m1], q as [s2 m2]. cbn.
  destruct (s1 =? s2); [ | reflexivity ].
  destruct (String.eqb m1 m2); reflexivity.
Qed.

Lemma string_leb_refl (s : string) : String.leb s s = true.
Proof. by destruct (String.leb_total s s). Qed.

Lemma scored_lt_le (p q : Z * string) :
  py_lt (scored p) (scored q) = Ok true -> pair_le p q.
Proof.
  rewrite py_lt_scored. unfold pair_le.
  destruct (Z.eqb_spec (fst p) (fst q)) as [Heq | Hne].
  - destruct (String.eqb (snd p) (snd q)); [ discriminate | ].
    intros [= Hlt]. right. split; [ done | ].
    unfold String.ltb, String.leb in *.
    by destruct (String.compare (snd p) (snd q)).
  - intros [= Hlt]. left. lia.
Qed.

Lemma scored_not_lt_le (p q : Z * string) :
  py_lt (scored p) (scored q) = Ok false -> pair_le q p.
Proof.
  rewrite py_lt_scored. unfold pair_le.
  destruct (Z.eqb_spec (fst p) (fst q)) as [Heq | Hne].
  - destruct (String.eqb_spec (snd p) (snd q)) as [Hm | Hm].
    + intros _. right. split; [ done | ]. rewrite Hm. apply string_leb_refl.
    + intros [= Hlt]. right. split; [ done | ].
      unfold String.ltb, String.leb in *.
      rewrite String.compare_antisym.
      by destruct (String.compare (snd p) (snd q)).
  - intros [= Hlt]. left. lia.
Qed.

Lemma sort_insert_scored (p : Z * string) (ps : list (Z * string)) :
  Sorted pair_le ps ->
  exists ps',
    sort_insert (scored p) (scored <$> ps) = Ok (scored <$> ps') /\
    ps' ≡ₚ p :: ps /\
    Sorted pair_le ps' /\
    (forall a, pair_le a p -> HdRel pair_le a ps -> HdRel pair_le a ps').
Proof.
  induction ps as [ | q ps IH ]; intros Hsorted.
  - exists [p]. split; [ reflexivity | ]. split; [ reflexivity | ].
    split; [ repeat constructor | ]. intros a Ha _. by constructor.
  - apply Sorted_inv in Hsorted as [Hps Hhd].
    cbn [fmap list_fmap sort_insert].
    destruct (py_lt (scored q) (scored p)) as [[ | ] | e] eqn:Hlt; cbn.
    + destruct (IH Hps) as (ps' & Hins & Hperm & Hs & Hrel).
      rewrite Hins. cbn. exists (q :: ps').
      split; [ reflexivity | ]. split; [ | split ].
      * rewrite Hperm. apply Permutation_swap.
      * constructor; [ done | ]. apply Hrel; [ | done ].
        by apply scored_lt_le.
      * intros a _ Ha. constructor. by inversion Ha.
    + exists (p :: q :: ps).
      split; [ reflexivity | ]. split; [ reflexivity | split ].
      * constructor; [ by constructor | ].
        constructor. by apply scored_not_lt_le.
      * intros a Ha _. by constructor.
    + rewrite py_lt_scored in Hlt. discriminate.
Qed.

Lemma py_sort_scored (ps : list (Z * string)) :
  exists ps',
    py_sort (scored <$> ps) = Ok (scored <$> ps') /\
    ps' ≡ₚ ps /\ Sorted pair_le ps'.
Proof.
  induction ps as [ | p ps (ps1 & Hsort & Hperm & Hs) ].
  - exists []. split; [ reflexivity | ]. split; [ reflexivity | constructor ].
  - cbn [fmap list_fmap py_sort]. rewrite Hsort. cbn.
    destruct (sort_insert_scored p ps1 Hs) as (ps' & Hins & Hperm' & Hs' & _).
    exists ps'. split; [ done | ]. split; [ | done ].
    by rewrite Hperm', Hperm.
Qed.

(** X24.  [zadd] of a str member on a key that is absent or holds a
    scored list of str members: the new pair is added (a member already
    present gets a second entry) and the list is left sorted by score, then
    by member. *)
Theorem zadd_keeps_sorted (st : state) (k : string) (score : Z) (m : string)
    (ps : list (Z * string)) :
  storage st !! k = Some (VList (scored <$> ps)) \/
  (storage st !! k = None /\ ps = []) ->
  exists ps',
    storage (after (JSONStorage.zadd k score (SStr m)) st)
    = <[k := VList (scored <$> ps')]> (storage st) /\
    ps' ≡ₚ (score, m) :: ps /\
    Sorted pair_le ps'.
Proof.
  intros [Hk | [Hk ->]].
  - destruct (py_sort_scored (ps ++ [(score, m)]))
      as (ps' & Hsort & Hperm & Hs).
    exists ps'. split; [ | split; [ | done ] ].
    + rewrite fmap_app in Hsort. cbn in Hsort.
      unfold JSONStorage.zadd, after. run_with Hk.
      change (VTuple [VInt score; VStr m]) with (scored (score, m)).
      rewrite Hsort. cbn. rewrite insert_insert_eq.
      elim_save; exact Hs0.
    + rewrite Hperm. by rewrite Permutation_app_comm.
  - exists [(score, m)]. split; [ | split; [ done | repeat constructor ] ].
    unfold JSONStorage.zadd, after. run_with Hk.
    rewrite lookup_insert_eq. cbn. rewrite !insert_insert_eq.
    elim_save; exact Hs.
Qed.

Lemma zadd_keeps_sorted_witness :
  let st := after (JSONStorage.zadd "z" 1 (SStr "y"))
              (after (JSONStorage.zadd "z" 3 (SStr "x")) fresh) in
  exists ps',
    storage (after (JSONStorage.zadd "z" 3 (SStr "a")) st) !! "z"
    = Some (VList (scored <$> ps')) /\
    length ps' = 3%nat /\ Sorted pair_le ps'.
Proof.
  intros st.
  assert (Hk : storage st !! "z" = Some (VList (scored <$> [(1, "y"); (3, "x")])))
    by (vm_compute; reflexivity).
  destruct (zadd_keeps_sorted st "z" 3 "a" _ (or_introl Hk))
    as (ps' & Hst & Hperm & Hs).
  exists ps'. split; [ by rewrite Hst, lookup_insert_eq | ].
  split; [ by rewrite Hperm | exact Hs ].
Defined.

Lemma py_slice_nonneg {A} (l : list A) (start end_ : Z) :
  0 <= start -> 0 <= end_ ->
  py_slice l start (end_ + 1)
  = take (Z.to_nat (end_ - start + 1)) (drop (Z.to_nat start) l).
Proof.
  intros Hs He. apply list_eq. intros i.
  rewrite py_slice_inclusive by done.
  destruct (decide (start + Z.of_nat i <= end_)).
  - rewrite lookup_take_lt by lia. by rewrite lookup_drop.
  - rewrite lookup_take_ge by lia. done.
Qed.

Lemma py_slice_whole {A} (l : list A) :
  py_slice l 0 (Z.of_nat (length l) - 1 + 1) = l.
Proof.
  unfold py_slice, slice_bound.
  replace (Z.of_nat (length l) - 1 + 1) with (Z.of_nat (length l)) by lia.
  cbn. destruct (Z.ltb_spec (Z.of_nat (length l)) 0); [ lia | ].
  rewrite Z.min_id, Z.min_l, Z.sub_0_r, Nat2Z.id by lia.
  by rewrite drop_0, firstn_all.
Qed.

Lemma mapM_result_ok {A B} (g : A -> B) (l : list A) :
  mapM (fun x => Ok (g x) : result B) l = Ok (g <$> l).
Proof. induction l as [ | x l IH ]; [ reflexivity | ]. cbn. by rewrite IH. Qed.

Lemma zrange_members (ps : list (Z * string)) :
  mapM (fun it => snd <$> unpack2 it) (scored <$> ps)
  = Ok ((fun p => VStr (snd p)) <$> ps).
Proof. rewrite mapM_result_fmap. apply (mapM_result_ok (fun p => VStr (snd p))). Qed.

Lemma zscore_loop_scored (ps : list (Z * string)) (m : string) :
  JSONStorage.zscore_loop (scored <$> ps) (VStr m)
  = Ok (match List.find (fun p => String.eqb (snd p) m) ps with
        | Some p => VInt (fst p)
        | None => VNone
        end).
Proof.
  induction ps as [ | [s m'] ps IH ]; [ reflexivity | ].
  cbn. destruct (String.eqb m' m); [ reflexivity | exact IH ].
Qed.

(** X25.  [zrange] and [zscore] on a key holding a scored list of str
    members.  With bounds that are not negative [zrange] returns the members
    at the positions [start] to [end] inclusive, in list order, and
    [zrange(key, 0, len - 1)] returns all members.  [zscore] returns the
    score of the first entry for the member in list order, and [None] when
    the member has no entry. *)
Theorem scored_list_queries (st : state) (k : string) (m : string)
    (ps : list (Z * string)) (start end_ : Z) :
  storage st !! k = Some (VList (scored <$> ps)) ->
  (0 <= start -> 0 <= end_ ->
   JSONStorage.zrange k start end_ st
   = (st, Ok ((fun p => VStr (snd p)) <$>
                take (Z.to_nat (end_ - start + 1)) (drop (Z.to_nat start) ps)))) /\
  JSONStorage.zrange k 0 (Z.of_nat (length ps) - 1) st
  = (st, Ok ((fun p => VStr (snd p)) <$> ps)) /\
  JSONStorage.zscore k (SStr m) st
  = (st, Ok (match List.find (fun p => String.eqb (snd p) m) ps with
             | Some p => VInt (fst p)
             | None => VNone
             end)).
Proof.
  intros Hk. split; [ | split ].
  - intros Hs He. unfold JSONStorage.zrange. run_with Hk.
    rewrite py_slice_fmap, py_slice_nonneg by done.
    by rewrite zrange_members.
  - unfold JSONStorage.zrange. run_with Hk.
    rewrite py_slice_fmap, py_slice_whole. by rewrite zrange_members.
  - unfold JSONStorage.zscore. run_with Hk. by rewrite zscore_loop_scored.
Qed.

Lemma scored_list_queries_witness :
  let st := after (JSONStorage.zadd "z" 1 (SStr "y"))
              (after (JSONStorage.zadd "z" 3 (SStr "x")) fresh) in
  JSONStorage.zrange "z" 0 1 st = (st, Ok [VStr "y"; VStr "x"]) /\
  JSONStorage.zscore "z" (SStr "x") st = (st, Ok (VInt 3)) /\
  JSONStorage.zscore "z" (SStr "w") st = (st, Ok VNone).
Proof.
  intros st.
  assert (Hk : storage st !! "z" = Some (VList (scored <$> [(1, "y"); (3, "x")])))
    by (vm_compute; reflexivity).
  destruct (scored_list_queries st "z" "x" _ 0 1 Hk) as (Hr & _ & Hx).
  destruct (scored_list_queries st "z" "w" _ 0 1 Hk) as (_ & _ & Hw).
  repeat apply conj.
  - rewrite Hr by lia. reflexivity.
  - rewrite Hx. reflexivity.
  - rewrite Hw. reflexivity.
Defined.

(** ** What a command creates on an absent key *)

(** X26.  On an absent key each creating command leaves an object whose
    type name, as [type] reports it, is: [set] after [sadd]; [list] after
    [lpush], [rpush] and [zadd]; [hash] after [hset], [hincrby], and also
    after [setex]; [integer] after [incrby] and [decrby]. *)
Theorem created_types (st : state) (k f : string) (v : value) (x : scalar)
    (n now ttl : Z) :
  storage st !! k = None ->
  let type_after (c : M unit) := snd (JSONStorage.type k (after c st)) in
  let type_after' (c : M value) := snd (JSONStorage.type k (after c st)) in
  type_after (JSONStorage.sadd k x) = Ok "set" /\
  type_after (JSONStorage.lpush k v) = Ok "list" /\
  type_after (JSONStorage.rpush k v) = Ok "list" /\
  type_after (JSONStorage.zadd k n x) = Ok "list" /\
  type_after (JSONStorage.hset k f v) = Ok "hash" /\
  type_after' (JSONStorage.hincrby k f n) = Ok "hash" /\
  type_after (JSONStorage.setex now k ttl v) = Ok "hash" /\
  type_after' (JSONStorage.incrby k n) = Ok "integer" /\
  type_after' (JSONStorage.decrby k n) = Ok "integer".
Proof.
  intros Hk type_after type_after'. subst type_after type_after'.
  assert (Htype : forall st1 w,
            storage st1 !! k = Some w ->
            snd (JSONStorage.type k st1)
            = Ok match w with
                 | VStr _ => "string" | VList _ => "list" | VSet _ => "set"
                 | VDict _ => "hash" | VInt _ => "integer" | _ => "unknown"
                 end).
  { intros st1 w H1. unfold JSONStorage.type. by run_with H1. }
  repeat apply conj.
  - rewrite (Htype _ (VSet ({[x]} ∪ ∅))); [ done | ].
    rewrite (storage_after_sadd st k x ∅) by (by right).
    apply lookup_insert_eq.
  - rewrite (Htype _ (VList [v])); [ done | ].
    rewrite (storage_after_lpush st k v []) by (by right).
    apply lookup_insert_eq.
  - rewrite (Htype _ (VList [v])); [ done | ].
    rewrite (storage_after_rpush st k v []) by (by right).
    apply lookup_insert_eq.
  - rewrite (Htype _ (VList [VTuple [VInt n; of_scalar x]])); [ done | ].
    unfold JSONStorage.zadd, after. run_with Hk.
    rewrite lookup_insert_eq. cbn.
    elim_save; rewrite Hs; by rewrite lookup_insert_eq.
  - rewrite (Htype _ (VDict (dict_set [] f v))); [ done | ].
    rewrite (storage_after_hset st k f v []) by (by right).
    apply lookup_insert_eq.
  - rewrite (Htype _ (VDict (dict_set [] f (VInt (0 + n))))); [ done | ].
    unfold after. rewrite (hincrby_run st k f n 0 []) by (by right).
    cbv zeta. elim_save; rewrite Hs; apply lookup_insert_eq.
  - rewrite (Htype _ (wrap v (now + ttl))); [ done | ].
    rewrite storage_after_setex. apply lookup_insert_eq.
  - rewrite (Htype _ (VInt (0 + n))); [ done | ].
    rewrite (storage_after_incrby st k n 0) by (by right).
    apply lookup_insert_eq.
  - unfold JSONStorage.decrby.
    rewrite (Htype _ (VInt (0 + - n))); [ done | ].
    rewrite (storage_after_incrby st k (- n) 0) by (by right).
    apply lookup_insert_eq.
Qed.

Lemma created_types_witness :
  snd (JSONStorage.type "k" (after (JSONStorage.sadd "k" (SInt 1)) fresh))
  = Ok "set" /\
  snd (JSONStorage.type "k" (after (JSONStorage.incrby "k" 5) fresh))
  = Ok "integer".
Proof.
  destruct (created_types fresh "k" "f" VNone (SInt 1) 5 0 0 eq_refl)
    as (Hs & _ & _ & _ & _ & _ & _ & Hi & _).
  split; [ exact Hs | exact Hi ].
Defined.

(** ** Looking into a hash *)

Lemma dict_get_lookup {A} (d : list (string * A)) (i : nat) (f : string)
    (v : A) :
  NoDup d.*1 -> d !! i = Some (f, v) -> dict_get d f = Some v.
Proof.
  revert i. induction d as [ | [k0 v0] d IH ]; intros i Hnd Hi; [ done | ].
  apply NoDup_cons in Hnd as [Hnin Hnd]. destruct i as [ | i ]; cbn in *.
  - injection Hi as -> ->. by rewrite String.eqb_refl.
  - destruct (String.eqb_spec k0 f) as [-> | Hne]; [ | by eapply IH ].
    exfalso. apply Hnin. apply list_elem_of_fmap. exists (f, v).
    split; [ done | ]. by eapply list_elem_of_lookup_2.
Qed.

(** X27.  [hkeys], [hvals] and [hlen] on a key holding a hash agree with
    each other and with [hget]: the two lists have the length [hlen]
    reports, and (field names being distinct, as in every Python
    dictionary) the value at a position of [hvals] is what [hget] returns
    for the field at the same position of [hkeys]. *)
Theorem hash_introspection (st : state) (k : string)
    (d : list (string * value)) :
  storage st !! k = Some (VDict d) ->
  exists ks vs,
    JSONStorage.hkeys k st = (st, Ok ks) /\
    JSONStorage.hvals k st = (st, Ok vs) /\
    JSONStorage.hlen k st = (st, Ok (Z.of_nat (length ks))) /\
    length vs = length ks /\
    (NoDup ks ->
     forall i f v, ks !! i = Some f -> vs !! i = Some v ->
                   JSONStorage.hget k f st = (st, Ok v)).
Proof.
  intros Hk. exists d.*1, d.*2.
  unfold JSONStorage.hkeys, JSONStorage.hvals, JSONStorage.hlen.
  run_with Hk. rewrite !length_fmap. repeat apply conj; try done.
  intros Hnd i f v Hf Hv. rewrite (hget_dict st k f d Hk).
  rewrite list_lookup_fmap in Hf. rewrite list_lookup_fmap in Hv.
  destruct (d !! i) as [[f' v'] | ] eqn:Hi; cbn in *; simplify_eq.
  by rewrite (dict_get_lookup d i f v Hnd Hi).
Qed.

Lemma hash_introspection_witness :
  let st := after (JSONStorage.hset "h" "b" (VInt 2))
              (after (JSONStorage.hset "h" "a" (VInt 1)) fresh) in
  JSONStorage.hkeys "h" st = (st, Ok ["a"; "b"]) /\
  JSONStorage.hvals "h" st = (st, Ok [VInt 1; VInt 2]) /\
  JSONStorage.hget "h" "b" st = (st, Ok (VInt 2)).
Proof.
  intros st.
  assert (Hk : storage st !! "h" = Some (VDict [("a", VInt 1); ("b", VInt 2)]))
    by (vm_compute; reflexivity).
  destruct (hash_introspection st "h" _ Hk) as (ks & vs & Hks & Hvs & _ & _ & Hg).
  assert (Eks : ks = ["a"; "b"]).
  { unfold JSONStorage.hkeys in Hks. unfold_monad. cbn in Hks.
    rewrite Hk in Hks. by injection Hks as <-. }
  assert (Evs : vs = [VInt 1; VInt 2]).
  { unfold JSONStorage.hvals in Hvs. unfold_monad. cbn in Hvs.
    rewrite Hk in Hvs. by injection Hvs as <-. }
  subst ks vs. repeat apply conj; [ exact Hks | exact Hvs | ].
  apply (Hg ltac:(repeat constructor; set_solver) 1%nat); reflexivity.
Defined.

(** ** After a restart *)

(** X28.  A list of ints and strs does not survive a restart as a list:
    in the engine loaded from the snapshot the key holds the set of the
    items, so [smembers] returns that set, [llen] answers 0, [lrange] and
    [lpop] find nothing, and [lpush] and [rpush] raise [TypeError]. *)
Theorem primitive_list_after_restart (st st' : state) (k : string)
    (l : list value) (v : value) (i j : Z) :
  reopen st = Ok st' ->
  storage st !! k = Some (VList l) ->
  JSONStorage.all_primitive l = true ->
  JSONStorage.smembers k st'
  = (st', Ok (VSet (list_to_set (omap to_scalar l)))) /\
  JSONStorage.llen k st' = (st', Ok 0) /\
  JSONStorage.lrange k i j st' = (st', Ok []) /\
  JSONStorage.lpop k st' = (st', Ok VNone) /\
  JSONStorage.lpush k v st' = (st', Raise TypeError) /\
  JSONStorage.rpush k v st' = (st', Raise TypeError).
Proof.
  intros Hre Hk Hl.
  pose proof (reopen_lookup_primitive st st' k l Hre Hk Hl) as Hk'.
  unfold JSONStorage.smembers, JSONStorage.llen, JSONStorage.lrange,
    JSONStorage.lpop, JSONStorage.lpush, JSONStorage.rpush.
  run_with Hk'. repeat apply conj; reflexivity.
Qed.

Lemma primitive_list_after_restart_witness :
  let st := after (JSONStorage.rpush "k" (VStr "b"))
              (after (JSONStorage.lpush "k" (VStr "a")) fresh) in
  exists st',
    reopen st = Ok st' /\
    JSONStorage.llen "k" st = (st, Ok 2) /\
    JSONStorage.llen "k" st' = (st', Ok 0) /\
    JSONStorage.lpush "k" (VStr "c") st' = (st', Raise TypeError).
Proof.
  intros st.
  assert (Hre : exists st', reopen st = Ok st').
  { eexists. vm_compute. reflexivity. }
  destruct Hre as [st' Hre]. exists st'.
  assert (Hk : storage st !! "k" = Some (VList [VStr "a"; VStr "b"]))
    by (vm_compute; reflexivity).
  destruct (primitive_list_after_restart st st' "k" _ (VStr "c") 0 0
              Hre Hk eq_refl) as (_ & Hlen & _ & _ & Hpush & _).
  repeat apply conj; try done.
Defined.

Lemma py_sort_lists_then_tuple (ls : list value) (t : list value) :
  ls <> [] ->
  Forall (fun it => exists l, it = VList l) ls ->
  py_sort (ls ++ [VTuple t]) = Raise TypeError.
Proof.
  intros Hne Hls. induction Hls as [ | it ls [l ->] Hls IH ]; [ done | ].
  cbn [app py_sort]. destruct ls as [ | it' ls' ].
  - reflexivity.
  - by rewrite IH.
Qed.

(** X29.  A scored list does not accept [zadd] after a restart: in the
    engine loaded from the snapshot the pairs are lists, the pair [zadd]
    appends is a tuple, and sorting the two kinds together raises
    [TypeError]; the file is not written. *)
Theorem zadd_after_restart_raises (st st' : state) (k : string)
    (l : list value) (score : Z) (member : scalar) :
  reopen st = Ok st' ->
  storage st !! k = Some (VList l) ->
  l <> [] ->
  forallb is_scored_item l = true ->
  snd (JSONStorage.zadd k score member st') = Raise TypeError /\
  file (after (JSONStorage.zadd k score member) st') = file st'.
Proof.
  intros Hre Hk Hne Hl.
  pose proof (reopen_lookup_scored st st' k l Hre Hk Hne Hl) as Hk'.
  assert (Hsort : py_sort ((tuple_to_list <$> l)
                           ++ [VTuple [VInt score; of_scalar member]])
                  = Raise TypeError).
  { apply py_sort_lists_then_tuple.
    - by destruct l.
    - apply Forall_fmap, Forall_forall. intros it Hit.
      rewrite forallb_forall in Hl.
      specialize (Hl it (proj1 (list_elem_of_In _ _) Hit)).
      destruct it as [ | | | | t | | ]; try discriminate. by exists t. }
  unfold JSONStorage.zadd, after. run_with Hk'. by rewrite Hsort.
Qed.

Lemma zadd_after_restart_raises_witness :
  let st := after (JSONStorage.zadd "z" 1 (SStr "x")) fresh in
  exists st',
    reopen st = Ok st' /\
    snd (JSONStorage.zadd "z" 2 (SStr "y") st) = Ok () /\
    snd (JSONStorage.zadd "z" 2 (SStr "y") st') = Raise TypeError.
Proof.
  intros st.
  assert (Hre : exists st', reopen st = Ok st').
  { eexists. vm_compute. reflexivity. }
  destruct Hre as [st' Hre]. exists st'.
  assert (Hk : storage st !! "z" = Some (VList [VTuple [VInt 1; VStr "x"]]))
    by (vm_compute; reflexivity).
  destruct (zadd_after_restart_raises st st' "z" _ 2 (SStr "y") Hre Hk
              ltac:(done) eq_refl) as [Hraise _].
  repeat apply conj; [ exact Hre | by vm_compute | exact Hraise ].
Defined.

(** ** A command without a type check *)

Lemma list_remove_found (l : list value) (x : value) :
  existsb (fun e => py_eq e x) l = true ->
  exists l', list_remove l x = Ok l' /\ length l = S (length l').
Proof.
  induction l as [ | y l IH ]; cbn; [ discriminate | ].
  destruct (py_eq y x); cbn.
  - intros _. by exists l.
  - intros Hl. destruct (IH Hl) as (l' & -> & Hlen).
    exists (y :: l'). cbn. by rewrite Hlen.
Qed.

(** X30.  [srem] does not check that the key holds a set: on a key
    holding a list it returns without doing anything when no item equals the
    value, and otherwise takes one item out of the list. *)
Theorem srem_on_a_list (st : state) (k : string) (l : list value)
    (x : scalar) :
  storage st !! k = Some (VList l) ->
  (existsb (fun e => py_eq e (of_scalar x)) l = false ->
   JSONStorage.srem k x st = (st, Ok ())) /\
  (existsb (fun e => py_eq e (of_scalar x)) l = true ->
   exists l',
     list_remove l (of_scalar x) = Ok l' /\
     length l = S (length l') /\
     storage (after (JSONStorage.srem k x) st) = <[k := VList l']> (storage st)).
Proof.
  intros Hk. split; intros Hx.
  - unfold JSONStorage.srem. run_with Hk. by rewrite Hx.
  - destruct (list_remove_found l _ Hx) as (l' & Hrem & Hlen).
    exists l'. split; [ done | split; [ done | ] ].
    unfold JSONStorage.srem, after. run_with Hk. rewrite Hx, Hrem. cbn.
    elim_save; exact Hs.
Qed.

Lemma srem_on_a_list_witness :
  let st := after (JSONStorage.rpush "k" (VStr "b"))
              (after (JSONStorage.rpush "k" (VStr "a")) fresh) in
  storage (after (JSONStorage.srem "k" (SStr "a")) st) !! "k"
  = Some (VList [VStr "b"]).
Proof.
  intros st.
  assert (Hk : storage st !! "k" = Some (VList [VStr "a"; VStr "b"]))
    by (vm_compute; reflexivity).
  destruct (srem_on_a_list st "k" _ (SStr "a") Hk) as [_ Hfound].
  destruct (Hfound eq_refl) as (l' & Hrem & _ & Hst).
  cbn in Hrem. injection Hrem as <-.
  by rewrite Hst, lookup_insert_eq.
Defined.
